(** * echo360: resolution, download and traversal logic of the lecture downloader

    A shallow embedding of [echo360/videos.py] and [echo360/course.py].
    Python values, exceptions and side effects are modelled explicitly:
    - JSON metadata as the inductive [json] (dicts as association lists, in
      insertion order, as [json.loads] builds them);
    - exceptions as the enumeration [exn] and the sum [res];
    - the browser, the network, the file system and the external mux tool as
      a [world] threaded through a state-and-exception monad, every call to
      the outside being answered by an oracle of the environment [env].

    Modules [Py] and [Sys] hold the runtime, [Videos] and [Course] the two
    source files, [RetrySpec] and the end of [Course] the vocabulary of the
    statements, [Scenario] concrete lectures and environments. The
    properties follow: resolution, retry loops, dates, downloading and
    remuxing, the pass over the course, collections. [Counting] holds
    [_count_lectures], [FileSpec] the vocabulary of the statements about
    files, [Cases] further lectures; the further properties at the end are
    about the shape of the addresses found, the page loads, lectures that
    cannot be built, files that a download leaves alone, subtitles, the
    mux, the counters of the pass and the paths of the transcripts. *)

From Stdlib Require Import Ascii String ZArith Lia DecimalString.
From stdpp Require Import gmap strings list sorting.

Local Open Scope string_scope.

(** ** Python runtime *)

Module Py.

(** Exceptions the modelled code raises or catches, by class name.
    [SystemExit] is not a subclass of [Exception]. [OutOfFuel] is no Python
    exception: it marks an exhausted recursion budget of a modelled loop, and
    the totality lemmas below show that the budgets used never run out. *)
Inductive exn : Type :=
  | KeyError
  | TypeError
  | IndexError
  | ValueError
  | AttributeError
  | UnboundLocalError
  | FileNotFoundError
  | FileExistsError
  | IsADirectoryError
  | TimeoutException
  | StaleElementReferenceException
  | NoSuchElementException
  | AssertionError
  | PlainException (msg : string)
  | LibraryError (name : string)
  | SystemExit
  | OutOfFuel.

Global Instance exn_eq_dec : EqDecision exn.
Proof. solve_decision. Defined.

(** [isinstance(e, Exception)] *)
Definition is_Exception (e : exn) : bool :=
  match e with SystemExit | OutOfFuel => false | _ => true end.

Inductive res (A : Type) : Type :=
  | Ok (a : A)
  | Raise (e : exn).
Global Arguments Ok {A} a.
Global Arguments Raise {A} e.

Definition rbind {A B} (r : res A) (k : A -> res B) : res B :=
  match r with Ok a => k a | Raise e => Raise e end.

(** JSON documents as [json.loads] returns them. The same type serves as
    the universe of the Python values the code passes around: [str] is
    [JStr], a list is [JList], [False] is [JBool false], [None] is [JNull]. *)
#[warnings="-register-all"]
Inductive json : Type :=
  | JNull
  | JBool (b : bool)
  | JNum (n : Z)
  | JStr (s : string)
  | JList (l : list json)
  | JDict (d : list (string * json)).

(** The number of nodes of a document. *)
Fixpoint json_size (j : json) : nat :=
  match j with
  | JList l => S (list_sum (map json_size l))
  | JDict d => S (list_sum (map (fun kv => json_size (snd kv)) d))
  | _ => 1
  end.

Fixpoint assoc {A} (k : string) (d : list (string * A)) : option A :=
  match d with
  | [] => None
  | (k', v) :: d' => if String.eqb k k' then Some v else assoc k d'
  end.

(** [d[k] = v] on a dict: an existing key keeps its position. *)
Fixpoint assoc_set {A} (k : string) (v : A) (d : list (string * A)) : list (string * A) :=
  match d with
  | [] => [(k, v)]
  | (k', v') :: d' =>
      if String.eqb k k' then (k, v) :: d' else (k', v') :: assoc_set k v d'
  end.

(** [j[k]] for a string key [k]. *)
Definition getitem (j : json) (k : string) : res json :=
  match j with
  | JDict d => match assoc k d with Some v => Ok v | None => Raise KeyError end
  | _ => Raise TypeError
  end.

(** [j[k] = v] for a string key [k]. *)
Definition setitem (j : json) (k : string) (v : json) : res json :=
  match j with
  | JDict d => Ok (JDict (assoc_set k v d))
  | _ => Raise TypeError
  end.

Definition string_of_ascii (c : ascii) : string := String c "".

(** [j[0]] *)
Definition getitem0 (j : json) : res json :=
  match j with
  | JList (x :: _) => Ok x
  | JList [] => Raise IndexError
  | JStr (String c _) => Ok (JStr (string_of_ascii c))
  | JStr "" => Raise IndexError
  | JDict _ => Raise KeyError
  | _ => Raise TypeError
  end.

(** Truth value of a JSON value ([bool(j)]). *)
Definition truthy (j : json) : bool :=
  match j with
  | JNull => false
  | JBool b => b
  | JNum n => negb (Z.eqb n 0)
  | JStr s => negb (String.eqb s "")
  | JList l => match l with [] => false | _ => true end
  | JDict d => match d with [] => false | _ => true end
  end.

Definition is_None (j : json) : bool :=
  match j with JNull => true | _ => false end.

(** String methods. *)

Fixpoint startswith (s p : string) : bool :=
  match p, s with
  | "", _ => true
  | String a p', String b s' => if Ascii.eqb a b then startswith s' p' else false
  | String _ _, "" => false
  end.

(** [p in s] for two strings. *)
Fixpoint str_contains (s p : string) : bool :=
  if startswith s p then true
  else match s with
       | "" => false
       | String _ s' => str_contains s' p
       end.

Definition endswith (s p : string) : bool :=
  startswith (String.rev s) (String.rev p).

(** [s.lower()], on ASCII letters. *)
Definition lower_ascii (c : ascii) : ascii :=
  let n := nat_of_ascii c in
  if (65 <=? n)%nat && (n <=? 90)%nat then ascii_of_nat (n + 32) else c.

Fixpoint lower (s : string) : string :=
  match s with
  | "" => ""
  | String c s' => String (lower_ascii c) (lower s')
  end.

(** [s[:n]] *)
Fixpoint str_take (n : nat) (s : string) : string :=
  match n, s with
  | S n', String c s' => String c (str_take n' s')
  | _, _ => ""
  end.

(** [s.split(sep)] for a one-character separator. *)
Fixpoint split_go (sep : ascii) (cur : string) (s : string) : list string :=
  match s with
  | "" => [String.rev cur]
  | String c s' =>
      if Ascii.eqb c sep then String.rev cur :: split_go sep "" s'
      else split_go sep (String c cur) s'
  end.
Definition split (sep : ascii) (s : string) : list string := split_go sep "" s.

(** [s.split(sep)[-1]] *)
Definition split_last (sep : ascii) (s : string) : string :=
  List.last (split sep s) "".

(** [s.replace("\/", "/")]: every backslash-slash pair becomes a slash. *)
Fixpoint unescape_slashes (s : string) : string :=
  match s with
  | "" => ""
  | String c s' =>
      match s' with
      | String "/"%char s'' =>
          if Ascii.eqb c "\"%char then String "/"%char (unescape_slashes s'')
          else String c (unescape_slashes s')
      | _ => String c (unescape_slashes s')
      end
  end.

(** [str(n)] for a natural number. *)
Definition str_of_nat (n : nat) : string :=
  NilZero.string_of_uint (Nat.to_uint n).

(** [x in j] for a string [x]: key membership on a dict, element membership
    on a list, substring on a string. *)
Definition contains (j : json) (x : string) : res bool :=
  match j with
  | JDict d => Ok (match assoc x d with Some _ => true | None => false end)
  | JList l =>
      Ok (existsb (fun y => match y with JStr s => String.eqb s x | _ => false end) l)
  | JStr s => Ok (str_contains s x)
  | _ => Raise TypeError
  end.

(** The items a [for] loop over [j] visits. *)
Definition iterate (j : json) : res (list json) :=
  match j with
  | JList l => Ok l
  | JDict d => Ok (map (fun kv => JStr (fst kv)) d)
  | JStr s => Ok (map (fun c => JStr (string_of_ascii c)) (list_ascii_of_string s))
  | _ => Raise TypeError
  end.

(** [xs.sort(key=k)]: the stable sort of [xs] by the string key [k], strings
    being compared by code point. Only [<] is used, as Python does. *)
Section SortBy.
Context {A : Type} (key : A -> string).

Fixpoint insert_by (x : A) (l : list A) : list A :=
  match l with
  | [] => [x]
  | y :: l' => if String.ltb (key y) (key x) then y :: insert_by x l' else x :: l
  end.

Definition sort_by (l : list A) : list A := foldr insert_by [] l.
End SortBy.

(** [sorted(xs)] on strings. *)
Definition sorted (l : list string) : list string := sort_by (fun s => s) l.





(** The orders that the sorts are stated with. *)
Definition str_lt (x y : string) : Prop := String.ltb x y = true.
Definition key_le {A} (key : A -> string) (a b : A) : Prop := String.le (key a) (key b).

End Py.
Export Py.

(** ** The outside world: browser, network, file system, mux tool *)

Module Sys.

Inductive node : Type :=
  | File (content : string)
  | Dir.

Global Instance node_eq_dec : EqDecision node.
Proof. solve_decision. Defined.

(** Calls that leave the process, in the order they are made. *)
Inductive event : Type :=
  | DriverGet (url : string)
  | HttpGet (url : string)
  | HttpHead (url : string)
  | HlsRun (url : string) (output_dir : string)
  | FFmpegRun (inputs : list string) (output : string).

Global Instance event_eq_dec : EqDecision event.
Proof. solve_decision. Defined.

(** The file system is a flat map from paths to files and directories: a
    file can be written where its parent directory is missing, and
    [makedirs] creates the named directory only. *)
Record world : Type := World {
  fs : gmap string node;
  trace : list event
}.

Definition log (ev : event) (w : world) : world :=
  World (fs w) (trace w ++ [ev]).

Definition set_fs (f : gmap string node) (w : world) : world :=
  World f (trace w).

Record response : Type := Response {
  status_code : nat;
  content : string
}.

(** [r.ok] *)
Definition response_ok (r : response) : bool := (status_code r <? 400)%nat.

Record parse_result : Type := ParseResult {
  scheme : string;
  netloc : string;
  path : string
}.

(** How a run of the mux tool ends. A tool that is not found or that fails
    leaves no output file behind. *)
Inductive mux_outcome : Type :=
  | MuxExecutableNotFound
  | MuxRuntimeError
  | MuxDone (output : string).

(** What the code cannot decide by itself. The answers of the browser, the
    network and the mux tool may depend on everything that happened before
    (the trace). [urlparse], [parse_date] ([dateutil.parser.parse] followed
    by [.date()] and [strftime] with year, month and day) and [format_value]
    ([str] of a value) are library functions. [strip_illegal_path],
    [urljoin], [hls_run] and [m3u8_parse] stand for the modules [utils],
    [hls_downloader] and [naive_m3u8_parser] of the package. The last two
    fields are the text clean-up of a transcript ([_convert_vtt_to_text] and
    the line filter of [vtt_to_text]), whose output no statement below looks
    at. *)
Record env : Type := Env {
  driver_get : list event -> string -> res unit;
  page_source : list event -> res string;
  content_player_src : list event -> nat -> res string;
  http_get : list event -> string -> res response;
  http_head : list event -> string -> res response;
  hls_run : list event -> string -> string -> res (string * string);
  ffmpeg_run : list event -> list string -> string -> mux_outcome;
  urlparse : json -> res parse_result;
  parse_date : json -> res string;
  format_value : json -> string;
  strip_illegal_path : string -> string;
  urljoin : string -> string -> string;
  m3u8_parse : list string -> res (option string * option string);
  convert_vtt_to_text_ : string -> string;
  clean_vtt_text : string -> string
}.

(** State-and-exception monad over a state [S]: what was done to the state
    before an exception is raised stays done. [M] is the instance over the
    [world]. *)
Definition ST (S A : Type) : Type := S -> res A * S.
Abbreviation M := (ST world).

Definition ret {S A} (a : A) : ST S A := fun s => (Ok a, s).
Definition raise {S A} (e : exn) : ST S A := fun s => (Raise e, s).
Definition bind {S A B} (c : ST S A) (k : A -> ST S B) : ST S B :=
  fun s => match c s with
           | (Ok a, s') => k a s'
           | (Raise e, s') => (Raise e, s')
           end.
Definition lift {S A} (r : res A) : ST S A := fun s => (r, s).
Definition get {S} : ST S S := fun s => (Ok s, s).
Definition modify {S} (f : S -> S) : ST S unit := fun s => (Ok tt, f s).

(** [try: c / except Exception as e: ...]: the outcome of [c] as a value;
    what is not an [Exception] goes on propagating. *)
Definition catch {S A} (c : ST S A) : ST S (res A) :=
  fun s => match c s with
           | (Ok a, s') => (Ok (Ok a), s')
           | (Raise e, s') =>
               if is_Exception e then (Ok (Raise e), s') else (Raise e, s')
           end.

Fixpoint mapM {A B} (f : A -> res B) (l : list A) : res (list B) :=
  match l with
  | [] => Ok []
  | x :: l' => rbind (f x) (fun y => rbind (mapM f l') (fun ys => Ok (y :: ys)))
  end.

(** File system primitives. *)
Definition exists_ (p : string) : M bool :=
  fun w => (Ok (bool_decide (is_Some (fs w !! p))), w).

Definition remove (p : string) : M unit :=
  fun w => match fs w !! p with
           | Some (File _) => (Ok tt, set_fs (delete p (fs w)) w)
           | Some Dir => (Raise IsADirectoryError, w)
           | None => (Raise FileNotFoundError, w)
           end.

Definition write_file (p : string) (c : string) : M unit :=
  fun w => match fs w !! p with
           | Some Dir => (Raise IsADirectoryError, w)
           | _ => (Ok tt, set_fs (<[p := File c]> (fs w)) w)
           end.

Definition read_file (p : string) : M string :=
  fun w => match fs w !! p with
           | Some (File c) => (Ok c, w)
           | Some Dir => (Raise IsADirectoryError, w)
           | None => (Raise FileNotFoundError, w)
           end.

(** [os.makedirs(p, exist_ok=True)] *)
Definition makedirs (p : string) : M unit :=
  fun w => match fs w !! p with
           | Some Dir => (Ok tt, w)
           | Some (File _) => (Raise FileExistsError, w)
           | None => (Ok tt, set_fs (<[p := Dir]> (fs w)) w)
           end.

(** [if not os.path.exists(p): os.makedirs(p)] *)
Definition ensure_dir (p : string) : M unit :=
  fun w => match fs w !! p with
           | Some _ => (Ok tt, w)
           | None => (Ok tt, set_fs (<[p := Dir]> (fs w)) w)
           end.

Definition rename (src dst : string) : M unit :=
  fun w => match fs w !! src with
           | Some n => (Ok tt, set_fs (<[dst := n]> (delete src (fs w))) w)
           | None => (Raise FileNotFoundError, w)
           end.

(** [os.path.join(a, b)] and [os.path.dirname(p)] on POSIX paths. *)
Definition path_join (a b : string) : string :=
  if startswith b "/" then b
  else if String.eqb a "" then b
  else if endswith a "/" then a ++ b
  else a ++ "/" ++ b.

Fixpoint strip_leading_slashes (s : string) : string :=
  match s with
  | String "/"%char s' => strip_leading_slashes s'
  | _ => s
  end.

Fixpoint drop_to_slash (s : string) : string :=
  match s with
  | "" => ""
  | String "/"%char _ => s
  | String _ s' => drop_to_slash s'
  end.

Definition dirname (p : string) : string :=
  let head := String.rev (drop_to_slash (String.rev p)) in
  let stripped := String.rev (strip_leading_slashes (String.rev head)) in
  if String.eqb stripped "" then head else stripped.

(** [os.path.basename(p)] and [os.path.splitext(name)[0]]. *)
Definition basename (p : string) : string := split_last "/"%char p.

Fixpoint drop_through_dot (s : string) : option string :=
  match s with
  | "" => None
  | String "."%char s' => Some s'
  | String _ s' => drop_through_dot s'
  end.

Fixpoint only_dots (s : string) : bool :=
  match s with
  | "" => true
  | String "."%char s' => only_dots s'
  | String _ _ => false
  end.

Definition splitext_root (name : string) : string :=
  match drop_through_dot (String.rev name) with
  | Some r => if only_dots r then name else String.rev r
  | None => name
  end.

End Sys.
Export Sys.

Declare Scope echo_scope.
Notation "'let*' x ':=' c 'in' k" := (bind c (fun x => k))
  (at level 10, x pattern, c at level 100, k at level 200) : echo_scope.
Notation "'do' c 'in' k" := (bind c (fun _ => k))
  (at level 10, c at level 100, k at level 200) : echo_scope.
Notation "'let?' x ':=' c 'in' k" := (rbind c (fun x => k))
  (at level 10, x pattern, c at level 100, k at level 200) : echo_scope.
Local Open Scope echo_scope.

(** ** [echo360/videos.py] *)

Module Videos.

(** [re.findall] for the pattern made of the literal [https://], a lazy run
    of characters other than comma and double quote, a dot and [suffix]. *)
Definition url_char (c : ascii) : bool :=
  negb (Ascii.eqb c ","%char) && negb (Ascii.eqb c "034"%char).

(** The lazy run, the dot and the suffix, matched at the head of [s]. *)
Fixpoint match_tail (suffix s : string) : option string :=
  if startswith s ("." ++ suffix) then Some ("." ++ suffix)
  else match s with
       | "" => None
       | String c s' =>
           if url_char c then String c <$> match_tail suffix s' else None
       end.

Definition match_here (suffix s : string) : option string :=
  if startswith s "https://"
  then String.app "https://" <$> match_tail suffix (String.substring 8 (String.length s - 8) s)
  else None.

(** Left-to-right scan for non-overlapping matches; [skip] counts the
    characters of the previous match still to be passed over. *)
Fixpoint findall_from (suffix : string) (skip : nat) (s : string) : list string :=
  match s with
  | "" => []
  | String _ s' =>
      match skip with
      | S k => findall_from suffix k s'
      | O =>
          match match_here suffix s with
          | Some m => m :: findall_from suffix (String.length m - 1) s'
          | None => findall_from suffix 0 s'
          end
      end
  end.

Definition findall (suffix text : string) : list string :=
  findall_from suffix 0 text.

Section WithEnv.
Variable E : env.

(** [self._driver.get(url)] *)
Definition driver_get_ (url : string) : M unit :=
  fun w => (driver_get E (trace w) url, log (DriverGet url) w).

(** [self._driver.page_source] *)
Definition page_source_ : M string :=
  fun w => (page_source E (trace w), w).

(** The two retry loops named [_loop_find_m3u8_url] (legacy) and
    [brute_force_get_url] (cloud) have the same shape:
<<
    stale_attempt = 1
    refresh_attempt = 1
    while True:
        self._driver.get(video_url)
        try:
            return <body>
        except TimeoutException:
            if refresh_attempt >= max_attempts: raise
            refresh_attempt += 1
        except StaleElementReferenceException:
            if stale_attempt >= max_attempts: raise
            stale_attempt += 1
>>
    [fuel] bounds the number of iterations of [while True]. *)
Fixpoint retry_loop {A} (body : M A) (video_url : string) (max_attempts : nat)
    (fuel : nat) (stale_attempt refresh_attempt : nat) : M A :=
  match fuel with
  | O => raise OutOfFuel
  | S fuel' =>
      do driver_get_ video_url in
      fun w =>
        match body w with
        | (Ok v, w') => (Ok v, w')
        | (Raise TimeoutException, w') =>
            if (max_attempts <=? refresh_attempt)%nat
            then (Raise TimeoutException, w')
            else retry_loop body video_url max_attempts fuel'
                   stale_attempt (refresh_attempt + 1) w'
        | (Raise StaleElementReferenceException, w') =>
            if (max_attempts <=? stale_attempt)%nat
            then (Raise StaleElementReferenceException, w')
            else retry_loop body video_url max_attempts fuel'
                   (stale_attempt + 1) refresh_attempt w'
        | (Raise e, w') => (Raise e, w')
        end
  end.

(** Iterations that [while True] can need at most. *)
Definition retry_budget (max_attempts : nat) : nat := 2 * max_attempts + 1.

(** [EchoVideo._loop_find_m3u8_url(video_url, waitsecond, max_attempts)] *)
Definition EchoVideo_loop_find_m3u8_url (video_url : string)
    (waitsecond max_attempts : nat) : M string :=
  retry_loop (fun w => (content_player_src E (trace w) waitsecond, w))
    video_url max_attempts (retry_budget max_attempts) 1 1.

Section Cloud.
(** Attributes of an [EchoCloudVideo] that resolution reads. *)
Variable hostname : string.
Variable video_json : json.
Variable video_url : string.
Variable max_attempts : nat.

Definition brute_force_get_url (suffix : string) : M (gset string) :=
  retry_loop
    (let* src := page_source_ in
     ret (list_to_set (findall suffix (unescape_slashes src))))
    video_url max_attempts (retry_budget max_attempts) 1 1.

Definition brute_force_get_mp4_url : M (list string) :=
  let* urls := brute_force_get_url "mp4" in
  if (size urls =? 0)%nat then raise (PlainException "None were found.")
  else ret (take 2 (sorted (elements urls))).

Definition from_json_m3u8 : res json :=
  let? lesson := getitem video_json "lesson" in
  let? hasVideo := getitem lesson "hasVideo" in
  let? unavailable :=
    if negb (truthy hasVideo) then Ok true
    else let? lesson := getitem video_json "lesson" in
         let? hasAvailableVideo := getitem lesson "hasAvailableVideo" in
         Ok (negb (truthy hasAvailableVideo)) in
  if unavailable : bool then Ok (JBool false)
  else
    let? lesson := getitem video_json "lesson" in
    let? video := getitem lesson "video" in
    let? media := getitem video "media" in
    let? media := getitem media "media" in
    let? versions := getitem media "versions" in
    let? version := getitem0 versions in
    let? manifests := getitem version "manifests" in
    let? items := iterate manifests in
    let? m3u8urls := mapM (fun m => getitem m "uri") items in
    let? host := urlparse E (JStr hostname) in
    let new_hostname := netloc host in
    let? new_m3u8urls :=
      mapM (fun url =>
              let? parse_result := urlparse E url in
              Ok (JStr (scheme parse_result ++ "://content." ++ new_hostname
                          ++ path parse_result)))
           m3u8urls in
    Ok (JList new_m3u8urls).

(** The metadata entry that lists the direct files. *)
Definition primary_files : res json :=
  let? lesson := getitem video_json "lesson" in
  let? video := getitem lesson "video" in
  let? media := getitem video "media" in
  let? media := getitem media "media" in
  let? current := getitem media "current" in
  getitem current "primaryFiles".

Definition from_json_mp4 : res json :=
  let? mp4_files := primary_files in
  let? items := iterate mp4_files in
  let? urls := mapM (fun obj => getitem obj "s3Url") items in
  match List.rev urls with
  | [] => Raise ValueError
  | url :: _ => Ok url
  end.

(** The local variable [m3u8urls]: unbound, a value computed from the
    metadata, or the set found in the page. A Python [set] is iterated
    in the order of [elements]. *)
Inductive m3u8urls_var : Type :=
  | Unbound
  | FromJson (v : json)
  | FromPage (s : gset string).

Definition str_endswith (v : json) (p : string) : res bool :=
  match v with
  | JStr s => Ok (endswith s p)
  | _ => Raise AttributeError
  end.

Fixpoint filterM (f : json -> res bool) (l : list json) : res (list json) :=
  match l with
  | [] => Ok []
  | x :: l' =>
      let? b := f x in
      let? r := filterM f l' in
      Ok (if b : bool then x :: r else r)
  end.

(** The tail of [_loop_find_m3u8_url], from the comment
    [find one that has audio + video] on. *)
Definition select_av (m3u8urls : m3u8urls_var) : res json :=
  let? items :=
    match m3u8urls with
    | Unbound => Raise UnboundLocalError
    | FromJson v => iterate v
    | FromPage s => Ok (JStr <$> elements s)
    end in
  let? m3u8urls := filterM (fun url => str_endswith url "av.m3u8") items in
  if (length m3u8urls =? 0)%nat then Ok (JBool false)
  else Ok (JList (take 2 (List.rev m3u8urls))).

(** [EchoCloudVideo._loop_find_m3u8_url] *)
Definition EchoCloudVideo_loop_find_m3u8_url : M json :=
  let* r := catch (lift from_json_mp4) in
  match r with
  | Ok url => ret url
  | Raise _ =>
      let* r := catch (lift from_json_m3u8) in
      let m3u8urls := match r with Ok v => FromJson v | Raise _ => Unbound end in
      let* r := catch brute_force_get_mp4_url in
      match r with
      | Ok urls => ret (JList (JStr <$> urls))
      | Raise _ =>
          let* found := brute_force_get_url "m3u8" in
          let m3u8urls := FromPage found in
          lift (select_av m3u8urls)
      end
  end.
End Cloud.

(** *** Dates *)

(** [EchoVideo._extract_date] *)
Definition EchoVideo_extract_date (video_json : json) : res json :=
  getitem video_json "startTime".

(** [EchoCloudVideo._extract_date] *)
Definition EchoCloudVideo_extract_date (is_multipart_video : bool)
    (video_json : json) : res json :=
  let? group_date :=
    if is_multipart_video then
      let? groupInfo := getitem video_json "groupInfo" in
      let? createdAt := getitem groupInfo "createdAt" in
      if negb (is_None createdAt) then Ok (Some createdAt)
      else
        let? groupInfo := getitem video_json "groupInfo" in
        let? updatedAt := getitem groupInfo "u'updatedAt'" in
        if negb (is_None updatedAt) then Ok (Some updatedAt) else Ok None
    else Ok None in
  match group_date with
  | Some d => Ok d
  | None =>
      let? lesson := getitem video_json "lesson" in
      let? has_start := contains lesson "startTimeUTC" in
      let? start :=
        if has_start : bool then
          let? startTimeUTC := getitem lesson "startTimeUTC" in
          if negb (is_None startTimeUTC) then Ok (Some startTimeUTC) else Ok None
        else Ok None in
      match start with
      | Some d => Ok d
      | None =>
          let? lesson := getitem video_json "lesson" in
          let? lesson := getitem lesson "lesson" in
          let? has_created := contains lesson "createdAt" in
          if has_created : bool then getitem lesson "createdAt" else Ok JNull
      end
  end.

(** [get_date], shared by both classes through [self._extract_date]. *)
Definition get_date (extract_date : json -> res json) (video_json : json) : res string :=
  match (let? d := extract_date video_json in parse_date E d) with
  | Ok date => Ok date
  | Raise e => if is_Exception e then Ok "1970-01-01" else Raise e
  end.

(** *** Video objects *)

(** An [EchoCloudVideo]. Attributes that a constructor path leaves unset
    are [None] here; reading them raises [AttributeError]. The attribute
    [sub_videos] is left out: no statement below reads it. *)
Record EchoCloudVideo : Type := MkCloudVideo {
  hostname : string;
  _path_prefix : json;
  video_json : json;
  is_multipart_video : bool;
  download_alternative_feeds : bool;
  download_subtitles : bool;
  _course_name : string;
  video_id : option string;
  _url : option json;
  _date : string;
  _title : option json
}.

Definition attr {A} (a : option A) : res A :=
  match a with Some x => Ok x | None => Raise AttributeError end.

(** The property [video_url]. *)
Definition video_url_of (hostname video_id : string) : string :=
  hostname ++ "/lesson/" ++ video_id ++ "/classroom".

(** [course_name or "Unknown_Course"] *)
Definition or_unknown_course (course_name : option string) : string :=
  match course_name with
  | Some n => if String.eqb n "" then "Unknown_Course" else n
  | None => "Unknown_Course"
  end.

(** [EchoCloudVideo.__init__]. Building a sub-video of a multi-part lesson
    always raises [TypeError]: [EchoCloudSubVideo.__init__] calls the
    parent constructor without its required argument [subtitles]. *)
Definition EchoCloudVideo_init (video_json : json) (hostname : string)
    (alternative_feeds subtitles : bool) (course_name : option string)
    : M EchoCloudVideo :=
  let* path_prefix := lift (getitem video_json "path_prefix") in
  let course := or_unknown_course course_name in
  let* multipart := lift (contains video_json "lessons") in
  if multipart : bool then
    let* lessons := lift (getitem video_json "lessons") in
    let* parts := lift (iterate lessons) in
    match parts with
    | _ :: _ =>
        let* groupInfo := lift (getitem video_json "groupInfo") in
        let* _ := lift (getitem groupInfo "name") in
        raise TypeError
    | [] =>
        let* date := lift (get_date (EchoCloudVideo_extract_date true) video_json) in
        ret (MkCloudVideo hostname path_prefix video_json true alternative_feeds
               subtitles course None None date None)
    end
  else
    let* lesson := lift (getitem video_json "lesson") in
    let* lesson := lift (getitem lesson "lesson") in
    let* id := lift (getitem lesson "id") in
    let video_id := format_value E id in
    let video_url := video_url_of hostname video_id in
    do driver_get_ video_url in
    do (let* _ := page_source_ in ret tt) in
    let* url :=
      if negb subtitles then
        let* m3u8_url :=
          EchoCloudVideo_loop_find_m3u8_url hostname video_json video_url 5 in
        ret (Some m3u8_url)
      else ret (Some JNull) in
    let* date := lift (get_date (EchoCloudVideo_extract_date false) video_json) in
    let* lesson := lift (getitem video_json "lesson") in
    let* lesson := lift (getitem lesson "lesson") in
    let* title := lift (getitem lesson "name") in
    ret (MkCloudVideo hostname path_prefix video_json false alternative_feeds
           subtitles course (Some video_id) url date (Some title)).

(** An [EchoVideo] of the legacy platform. *)
Record EchoVideo : Type := MkVideo {
  legacy_url : string;
  legacy_date : string;
  legacy_title : json
}.

(** [EchoVideo._blow_up(str, e)]: the parameter named [str] shadows the
    builtin, so formatting the exception calls a string and raises
    [TypeError] before [sys.exit] is reached. *)
Definition EchoVideo_blow_up {A} : M A := raise TypeError.

(** [EchoVideo.__init__] *)
Definition EchoVideo_init (video_json : json) : M EchoVideo :=
  fun w =>
    let body : M EchoVideo :=
      let* richMedia := lift (getitem video_json "richMedia") in
      let video_url := format_value E richMedia in
      do driver_get_ video_url in
      do (let* _ := page_source_ in ret tt) in
      let* m3u8_url := EchoVideo_loop_find_m3u8_url video_url 30 5 in
      let* startTime := lift (getitem video_json "startTime") in
      let* date := lift (get_date EchoVideo_extract_date startTime) in
      let* title := lift (getitem video_json "title") in
      ret (MkVideo m3u8_url date title) in
    match body w with
    | (Raise KeyError, w') => EchoVideo_blow_up w'
    | r => r
    end.

(** *** Downloading *)

Definition http_get_ (url : string) : M response :=
  fun w => (http_get E (trace w) url, log (HttpGet url) w).

Definition http_head_ (url : string) : M response :=
  fun w => (http_head E (trace w) url, log (HttpHead url) w).

(** [v == s] for a string literal [s]. *)
Definition eq_str (v : json) (s : string) : bool :=
  match v with JStr s' => String.eqb s' s | _ => false end.

Definition as_str (v : json) : res string :=
  match v with JStr s => Ok s | _ => Raise TypeError end.

(** The loop that looks for the id of the first media of type [Video]. *)
Fixpoint find_video_media_id (medias : list json) : res json :=
  match medias with
  | [] => Ok JNull
  | media :: rest =>
      let? mediaType := getitem media "mediaType" in
      if eq_str mediaType "Video" then getitem media "id"
      else find_video_media_id rest
  end.

(** [EchoVideo._download_url_to_dir], with [Downloader.run] as an oracle
    that leaves the file [result_file_name] behind. *)
Definition _download_url_to_dir (url output_dir filename : string) : M string :=
  let* result :=
    (fun w => (hls_run E (trace w) url output_dir, log (HlsRun url output_dir) w)) in
  let '(result_file_name, data) := result in
  do write_file result_file_name data in
  let ext := split_last "."%char result_file_name in
  let result_full_path := path_join output_dir (filename ++ "." ++ ext) in
  do rename result_file_name result_full_path in
  ret result_full_path.

(** The keys of the dict [_inputs] of [combine_audio_video]. *)
Definition mux_inputs (audio_file : option string) (video_file : string) : list string :=
  match audio_file with
  | Some a => if String.eqb a video_file then [video_file] else [video_file; a]
  | None => [video_file]
  end.

(** [EchoCloudVideo.combine_audio_video] *)
Definition combine_audio_video (audio_file : option string)
    (video_file final_file : string) : M bool :=
  let* stale := exists_ final_file in
  do (if stale : bool then remove final_file else ret tt) in
  let _inputs := mux_inputs audio_file video_file in
  fun w =>
    match ffmpeg_run E (trace w) _inputs final_file with
    | MuxExecutableNotFound => (Ok false, log (FFmpegRun _inputs final_file) w)
    | MuxRuntimeError => (Ok false, log (FFmpegRun _inputs final_file) w)
    | MuxDone out =>
        (do write_file final_file out in ret true) (log (FFmpegRun _inputs final_file) w)
    end.

(** The end of the manifest branch of [download_single]: mix, and remove
    the plain audio and video files if mixing was successful. *)
Definition remux (audio_file : option string) (video_file final_file : string) : M unit :=
  let* mixed := combine_audio_video audio_file video_file final_file in
  if mixed : bool then
    do (match audio_file with Some a => remove a | None => ret tt end) in
    remove video_file
  else ret tt.

Section Methods.
Variable self : EchoCloudVideo.

(** The part of [download_single] guarded by [if self.download_subtitles].
    [Some b] is [return b]; [None] falls through to the video part. *)
Definition download_subtitle (output_dir filename : string) : M (option bool) :=
  let* found :=
    (fun w =>
       match (let? lesson := getitem (video_json self) "lesson" in
              let? medias := getitem lesson "medias" in
              let? items := iterate medias in
              find_video_media_id items) with
       | Ok media_id => (Ok (Some media_id), w)
       | Raise KeyError | Raise IndexError => (Ok None, w)
       | Raise e => (Raise e, w)
       end) in
  match found with
  | None => ret (Some false)
  | Some media_id =>
      if is_None media_id then ret (Some false)
      else
        let dirty_path := path_join output_dir (filename ++ ".vtt") in
        let clean_dir := path_join (dirname output_dir) "clean" in
        do ensure_dir clean_dir in
        let* have := exists_ dirty_path in
        if have : bool then ret None
        else
          let* id := lift (attr (video_id self)) in
          let vtt_url :=
            hostname self ++ "/api/ui/echoplayer/lessons/" ++ id ++ "/medias/"
              ++ format_value E media_id ++ "/transcript-file?format=vtt" in
          let* response := http_get_ vtt_url in
          if (status_code response =? 200)%nat then
            let* head := http_head_ vtt_url in
            do write_file dirty_path (content response) in
            let clean_path := path_join clean_dir (filename ++ ".txt") in
            let clean_text := convert_vtt_to_text_ E (content response) in
            do write_file clean_path clean_text in
            ret (Some true)
          else ret (Some false)
  end.

(** The manifest branch of [download_single]. *)
Definition download_manifest (single_url output_dir filename : string) : M bool :=
  let* r := http_get_ single_url in
  if negb (response_ok r) then ret false
  else
    let lines := split "010"%char (content r) in
    let* parsed := catch (lift (m3u8_parse E lines)) in
    match parsed with
    | Raise _ => ret false
    | Ok (None, _) => ret false
    | Ok (Some m3u8_video, m3u8_audio) =>
        let* audio_file :=
          match m3u8_audio with
          | Some a =>
              let* f := _download_url_to_dir (urljoin E single_url a)
                          output_dir (filename ++ "_audio") in
              ret (Some f)
          | None => ret None
          end in
        let* video_file := _download_url_to_dir (urljoin E single_url m3u8_video)
                             output_dir (filename ++ "_video") in
        do remux audio_file video_file (path_join output_dir (filename ++ ".mp4")) in
        ret true
    end.

(** The direct-file branch of [download_single]. *)
Definition download_file (single_url output_dir filename : string) : M bool :=
  let* r := http_get_ single_url in
  do write_file (path_join output_dir (filename ++ ".mp4")) (content r) in
  ret true.

(** [EchoCloudVideo.download_single(session, single_url, output_dir,
    filename, pool_size)] *)
Definition download_single (single_url : json) (output_dir filename : string) : M bool :=
  let filename := strip_illegal_path E filename in
  let* early :=
    if download_subtitles self then download_subtitle output_dir filename
    else ret None in
  match early with
  | Some b => ret b
  | None =>
      if is_None single_url then ret true
      else
        let* done := exists_ (path_join output_dir (filename ++ ".mp4")) in
        if done : bool then ret true
        else
          let* is_manifest := lift (str_endswith single_url ".m3u8") in
          let* url := lift (as_str single_url) in
          if is_manifest : bool then download_manifest url output_dir filename
          else download_file url output_dir filename
  end.

(** The loop of [download] over the attached media that are not videos. *)
Fixpoint download_medias (dirty_dir : string) (medias : list json) : M unit :=
  match medias with
  | [] => ret tt
  | media :: rest =>
      let* mediaType := lift (getitem media "mediaType") in
      do (if negb (eq_str mediaType "Video") then
            let* title := lift (getitem media "title") in
            let* media_filename := lift (as_str title) in
            let media_filepath := path_join dirty_dir media_filename in
            let* id := lift (getitem media "id") in
            let media_url :=
              hostname self ++ "/media/download/" ++ format_value E id ++ "/"
                ++ media_filename in
            let* have := exists_ media_filepath in
            if have : bool then ret tt
            else
              let* response := http_get_ media_url in
              if (status_code response =? 200)%nat
              then write_file media_filepath (content response)
              else ret tt
          else ret tt) in
      download_medias dirty_dir rest
  end.

(** The loop [for counter, single_url in enumerate(urls)] of [download],
    from index [counter] on, with the running [final_result]. *)
Fixpoint download_feeds (dirty_dir filename : string) (counter : nat)
    (urls : list json) (final_result : bool) : M bool :=
  match urls with
  | [] => ret final_result
  | single_url :: rest =>
      let new_filename :=
        if download_alternative_feeds self
        then filename ++ str_of_nat (counter + 1)
        else filename in
      let* result := download_single single_url dirty_dir new_filename in
      download_feeds dirty_dir filename (counter + 1) rest (final_result && result)
  end.

(** The head of [download]: the course directory with its [dirty] and
    [clean] directories. *)
Definition prepare_dirs (output_dir : string) : M string :=
  let course_name := strip_illegal_path E (_course_name self) in
  let course_dir := path_join output_dir course_name in
  do ensure_dir course_dir in
  let dirty_dir := path_join course_dir "dirty" in
  let clean_dir := path_join course_dir "clean" in
  do ensure_dir dirty_dir in
  do ensure_dir clean_dir in
  ret dirty_dir.

Definition download_attached_media (dirty_dir : string) : M unit :=
  let* lesson := lift (getitem (video_json self) "lesson") in
  let* medias := lift (getitem lesson "medias") in
  let* items := lift (iterate medias) in
  download_medias dirty_dir items.

(** [urls] of [download] before the flag is looked at. *)
Definition candidates (url : json) : list json :=
  match url with JList l => l | _ => [url] end.

(** [EchoCloudVideo.download(output_dir, filename, pool_size)] *)
Definition download (output_dir filename : string) : M bool :=
  let* dirty_dir := prepare_dirs output_dir in
  if negb (download_subtitles self) then
    let* url := lift (attr (_url self)) in
    let urls := candidates url in
    let urls := if negb (download_alternative_feeds self) then take 1 urls else urls in
    do download_attached_media dirty_dir in
    download_feeds dirty_dir filename 0 urls true
  else download_single JNull dirty_dir filename.
End Methods.
End WithEnv.

End Videos.

(** ** Collections of videos, and [echo360/course.py] *)

Module Course.
Import Videos.

Section WithEnv.
Variable E : env.

(** [s[:10]] *)
Definition slice10 (v : json) : res json :=
  match v with
  | JStr s => Ok (JStr (str_take 10 s))
  | JList l => Ok (JList (take 10 l))
  | _ => Raise TypeError
  end.

(** The test that an item is a lesson: its type, in lower case, contains
    the word [lesson]. *)
Definition is_lesson (item : json) : res bool :=
  let? type := getitem item "type" in
  match type with
  | JStr t => Ok (str_contains (lower t) "lesson")
  | _ => Raise AttributeError
  end.

(** The test that a folder name is one of [home], [echo360] or the course
    name, in lower case. *)
Definition redundant_folder (folder_name course_name : string) : bool :=
  let f := lower folder_name in
  String.eqb f "home" || String.eqb f "echo360" || String.eqb f (lower course_name).

(** [EchoVideos.__init__] of [videos.py]: the legacy collection. *)
Fixpoint build_videos (videos_json : list json) (videos : list EchoVideo)
    : M (list EchoVideo) :=
  match videos_json with
  | [] => ret videos
  | video_json :: rest =>
      let* v := EchoVideo_init E video_json in
      build_videos rest (videos ++ [v])%list
  end.

Definition EchoVideos_init (videos_json : json) : M (list EchoVideo) :=
  if is_None videos_json then raise AssertionError
  else
    let* items := lift (iterate videos_json) in
    let* videos := build_videos items [] in
    ret (sort_by legacy_date videos).

(** [EchoCloudVideos.__init__] of [course.py], the class that [get_videos]
    instantiates (the definition in [course.py] shadows the imported one). *)
Fixpoint select_lessons (course_json : list json) : res (list json) :=
  match course_json with
  | [] => Ok []
  | item :: rest =>
      let? keep :=
        match item with
        | JDict _ => is_lesson item
        | _ => Ok false
        end in
      let? r := select_lessons rest in
      Ok (if keep : bool then item :: r else r)
  end.

Fixpoint build_cloud_videos (hostname : string) (alternative_feeds subtitles : bool)
    (course_name : string) (skip_video_on_error : bool) (videos_json : list json)
    (videos : list EchoCloudVideo) : M (list EchoCloudVideo) :=
  match videos_json with
  | [] => ret videos
  | video_json :: rest =>
      let* r := catch (EchoCloudVideo_init E video_json hostname alternative_feeds
                         subtitles (Some course_name)) in
      let* videos :=
        match r with
        | Ok v => ret (videos ++ [v])%list
        | Raise e => if negb skip_video_on_error then raise e else ret videos
        end in
      build_cloud_videos hostname alternative_feeds subtitles course_name
        skip_video_on_error rest videos
  end.

Definition EchoCloudVideos_init (course_json : json) (hostname : string)
    (alternative_feeds subtitles : bool) (course_name : option string)
    (skip_video_on_error : bool) : M (list EchoCloudVideo) :=
  if is_None course_json then raise AssertionError
  else
    let _course_name := or_unknown_course course_name in
    let course_name := strip_illegal_path E _course_name in
    let course_dir := path_join "default_out_path" course_name in
    do makedirs (path_join course_dir "dirty") in
    do makedirs (path_join course_dir "clean") in
    let* items := lift (iterate course_json) in
    let* videos_json := lift (select_lessons items) in
    let* videos := build_cloud_videos hostname alternative_feeds subtitles
                     _course_name skip_video_on_error videos_json [] in
    ret (sort_by _date videos).

(** [vtt_to_text.convert_vtt_to_text(vtt_path, output_dir)], as to the
    files it reads and writes. *)
Definition convert_vtt_to_text (vtt_path output_dir : string) : M string :=
  do makedirs output_dir in
  let txt_name := splitext_root (basename vtt_path) ++ ".txt" in
  let output_path := path_join output_dir txt_name in
  let* text := read_file vtt_path in
  do write_file output_path (clean_vtt_text E text) in
  ret output_path.

(** The attributes of an [EchoCloudCourse] that [get_videos] updates,
    together with the local variables of its single pass. [fetched_dates]
    is a ghost variable: the [lecture_date] of every lecture for which
    [session.get(vtt_url)] was called, oldest first. *)
Record pass : Type := Pass {
  _lecture_count : Z;
  _processed_lectures : Z;
  _skipped_lectures : Z;
  _processed_lecture_dates : gset string;
  queue : list (json * string);
  found_future_lecture : bool;
  processed_videos : list json;
  filename : option string;
  fetched_dates : list string
}.

Definition set_processed_lectures (n : Z) (p : pass) : pass :=
  Pass (_lecture_count p) n (_skipped_lectures p) (_processed_lecture_dates p)
    (queue p) (found_future_lecture p) (processed_videos p) (filename p)
    (fetched_dates p).
Definition set_skipped_lectures (n : Z) (p : pass) : pass :=
  Pass (_lecture_count p) (_processed_lectures p) n (_processed_lecture_dates p)
    (queue p) (found_future_lecture p) (processed_videos p) (filename p)
    (fetched_dates p).
Definition set_processed_lecture_dates (d : gset string) (p : pass) : pass :=
  Pass (_lecture_count p) (_processed_lectures p) (_skipped_lectures p) d
    (queue p) (found_future_lecture p) (processed_videos p) (filename p)
    (fetched_dates p).
Definition set_queue (q : list (json * string)) (p : pass) : pass :=
  Pass (_lecture_count p) (_processed_lectures p) (_skipped_lectures p)
    (_processed_lecture_dates p) q (found_future_lecture p) (processed_videos p)
    (filename p) (fetched_dates p).
Definition set_found_future_lecture (b : bool) (p : pass) : pass :=
  Pass (_lecture_count p) (_processed_lectures p) (_skipped_lectures p)
    (_processed_lecture_dates p) (queue p) b (processed_videos p) (filename p)
    (fetched_dates p).
Definition set_processed_videos (v : list json) (p : pass) : pass :=
  Pass (_lecture_count p) (_processed_lectures p) (_skipped_lectures p)
    (_processed_lecture_dates p) (queue p) (found_future_lecture p) v (filename p)
    (fetched_dates p).
Definition set_filename (f : option string) (p : pass) : pass :=
  Pass (_lecture_count p) (_processed_lectures p) (_skipped_lectures p)
    (_processed_lecture_dates p) (queue p) (found_future_lecture p)
    (processed_videos p) f (fetched_dates p).
Definition set_fetched_dates (l : list string) (p : pass) : pass :=
  Pass (_lecture_count p) (_processed_lectures p) (_skipped_lectures p)
    (_processed_lecture_dates p) (queue p) (found_future_lecture p)
    (processed_videos p) (filename p) l.

(** Computations of [get_videos]: over the pass and the world. *)
Abbreviation MP := (ST (pass * world)).

Definition in_world {A} (c : M A) : MP A :=
  fun s => let '(r, w) := c (snd s) in (r, (fst s, w)).
Definition get_pass : MP pass := fun s => (Ok (fst s), s).
Definition update (f : pass -> pass) : MP unit := modify (fun s => (f (fst s), snd s)).

Inductive flow : Type := Next | Break.

Section Traversal.
Variable hostname : string.
Variable course_name : string.

Definition no_content_marker : string :=
  "Looks like no content has been added to this class yet".

(** The [lecture_date] of a lesson item. *)
Definition lecture_date_of (item : json) : res json :=
  let? lesson := getitem item "lesson" in
  let? has_start := contains lesson "startTimeUTC" in
  let? lecture_date :=
    if has_start : bool then
      let? startTimeUTC := getitem lesson "startTimeUTC" in
      if negb (is_None startTimeUTC) then slice10 startTimeUTC else Ok JNull
    else Ok JNull in
  let? lecture_date :=
    if negb (truthy lecture_date) then
      let? lesson := getitem item "lesson" in
      let? lesson := getitem lesson "lesson" in
      let? has_created := contains lesson "createdAt" in
      if has_created : bool then
        let? lesson := getitem item "lesson" in
        let? lesson := getitem lesson "lesson" in
        let? createdAt := getitem lesson "createdAt" in
        slice10 createdAt
      else Ok lecture_date
    else Ok lecture_date in
  Ok (if negb (truthy lecture_date) then JStr "1970-01-01" else lecture_date).

(** [x in self._processed_lecture_dates]: only a string can be hashed
    among the values a [lecture_date] takes. *)
Definition hashable_str (v : json) : res string :=
  match v with JStr s => Ok s | _ => Raise TypeError end.

Definition lesson_id (item : json) : res json :=
  let? lesson := getitem item "lesson" in
  let? lesson := getitem lesson "lesson" in
  getitem lesson "id".

(** The id of the first media of type [Video] of a lesson item, [None]
    if there is none. *)
Definition video_media_id (item : json) : res json :=
  let? lesson := getitem item "lesson" in
  let? medias := getitem lesson "medias" in
  let? medias := iterate medias in
  find_video_media_id medias.

Definition lecture_name_of (item : json) : res string :=
  let? lesson := getitem item "lesson" in
  let? lesson := getitem lesson "lesson" in
  let? name := getitem lesson "name" in
  let? name := as_str name in
  Ok (strip_illegal_path E name).

(** [session.get(vtt_url)] for the lecture of date [lecture_date], with
    its entry in the ghost variable. *)
Definition session_get_transcript (lecture_date vtt_url : string) : MP response :=
  do update (fun p => set_fetched_dates (fetched_dates p ++ [lecture_date])%list p) in
  in_world (http_get_ E vtt_url).

(** The body of the [try] that processes the transcript of one lesson.
    The result [Some Next] stands for the [continue] statement, which
    leaves the iteration without reaching the final progress update. *)
Definition process_transcript (item : json) : MP (option flow) :=
  let* media_id := lift (video_media_id item) in
  if is_None media_id then ret None
  else
    let* lecture_name := lift (lecture_name_of item) in
    let* lecture_date := lift (lecture_date_of item) in
    let* lecture_date := lift (hashable_str lecture_date) in
    let* st := get_pass in
    if bool_decide (lecture_date ∈ _processed_lecture_dates st) then
      do update (fun p => set_processed_lectures (_processed_lectures p + 1) p) in
      ret (Some Next)
    else
      do update (fun p => set_processed_lecture_dates
                            ({[lecture_date]} ∪ _processed_lecture_dates p) p) in
      let filename := lecture_date ++ "_" ++ lecture_name in
      do update (set_filename (Some filename)) in
      let course_dir := path_join "default_out_path" course_name in
      let dirty_dir := path_join course_dir "dirty" in
      let clean_dir := path_join course_dir "clean" in
      do in_world (makedirs dirty_dir) in
      do in_world (makedirs clean_dir) in
      let dirty_path := path_join dirty_dir (filename ++ ".vtt") in
      let clean_path := path_join clean_dir (filename ++ ".txt") in
      let* have := in_world (exists_ clean_path) in
      if negb have then
        let* id := lift (lesson_id item) in
        let vtt_url :=
          hostname ++ "/api/ui/echoplayer/lessons/" ++ format_value E id
            ++ "/medias/" ++ format_value E media_id
            ++ "/transcript-file?format=vtt" in
        let* response := session_get_transcript lecture_date vtt_url in
        if (status_code response =? 200)%nat then
          do in_world (write_file dirty_path (content response)) in
          let* _ := in_world (convert_vtt_to_text dirty_path clean_dir) in
          ret None
        else ret None
      else ret None.

Definition count_processed : MP unit :=
  update (fun p => set_processed_lectures (_processed_lectures p + 1) p).

(** One iteration of [for item in items], for the queue entry with
    path [path]. *)
Definition process_item (path : string) (item : json) : MP flow :=
  match item with
  | JDict _ =>
      let* lesson := lift (is_lesson item) in
      if lesson : bool then
        let* id := lift (lesson_id item) in
        let video_url := hostname ++ "/lesson/" ++ format_value E id ++ "/classroom" in
        do in_world (driver_get_ E video_url) in
        let* src := in_world (page_source_ E) in
        if str_contains src no_content_marker then
          do update (fun p =>
               let remaining_to_skip :=
                 (_lecture_count p - (_processed_lectures p + _skipped_lectures p))%Z in
               set_found_future_lecture true
                 (set_skipped_lectures (_skipped_lectures p + remaining_to_skip) p)) in
          ret Break
        else
          let* item := lift (setitem item "path_prefix" (JStr path)) in
          do update (fun p => set_processed_videos (processed_videos p ++ [item])%list p) in
          let* r := catch (process_transcript item) in
          match r with
          | Ok (Some f) => ret f
          | Ok None => do count_processed in ret Next
          | Raise _ =>
              let* st := get_pass in
              match filename st with
              | None => raise UnboundLocalError
              | Some _ => do count_processed in ret Next
              end
          end
      else
        let* group := lift (contains item "groupInfo") in
        let* st := get_pass in
        if group && negb (found_future_lecture st) then
          let* groupInfo := lift (getitem item "groupInfo") in
          let* name := lift (getitem groupInfo "name") in
          let* name := lift (as_str name) in
          let folder_name := strip_illegal_path E name in
          let new_path :=
            if negb (redundant_folder folder_name course_name)
            then (if negb (String.eqb path "") then path_join path folder_name
                  else folder_name)
            else path in
          let* lessons := lift (getitem item "lessons") in
          do update (fun p => set_queue (queue p ++ [(lessons, new_path)])%list p) in
          ret Next
        else ret Next
  | _ => ret Next
  end.

Fixpoint for_items (path : string) (items : list json) : MP unit :=
  match items with
  | [] => ret tt
  | item :: rest =>
      let* f := process_item path item in
      match f with
      | Break => ret tt
      | Next => for_items path rest
      end
  end.

(** [while queue and not found_future_lecture], for at most [fuel]
    entries of the queue. *)
Fixpoint while_queue (fuel : nat) : MP unit :=
  match fuel with
  | O => raise OutOfFuel
  | S fuel' =>
      let* st := get_pass in
      match queue st with
      | [] => ret tt
      | (items, path) :: rest =>
          if found_future_lecture st then ret tt
          else
            do update (set_queue rest) in
            let* items := lift (iterate items) in
            do for_items path items in
            while_queue fuel'
      end
  end.
End Traversal.

(** Queue entries that a pass over [videos_json] can take at most: every
    entry but the first is the [lessons] value of a folder of the document. *)
Definition pass_budget (videos_json : json) : nat := S (S (json_size videos_json)).

(** [EchoCloudCourse.get_videos], from the single pass over the course
    data on: the pass with fresh local variables, then the collection of
    the processed items. *)
Definition get_videos (hostname course_name : string)
    (alternative_feeds subtitles : bool) (videos_json : json)
    : MP (list EchoCloudVideo) :=
  do update (fun p => set_filename None (set_processed_videos []
               (set_found_future_lecture false (set_queue [(videos_json, "")] p)))) in
  do while_queue hostname course_name (pass_budget videos_json) in
  let* st := get_pass in
  in_world (EchoCloudVideos_init (JList (processed_videos st)) hostname
              alternative_feeds subtitles (Some course_name) true).

(** The state of a new [EchoCloudCourse] with [count] lectures. *)
Definition new_pass (count : Z) : pass := Pass count 0 0 ∅ [] false [] None [].
End WithEnv.

(** ** Vocabulary of the statements about the pass *)

(** The work that a queue stands for, and the part of it that the items of
    one entry can add: only folders, which are dicts, add entries. *)
Definition queue_cost (q : list (json * string)) : nat :=
  list_sum (map (fun entry => S (json_size (fst entry))) q).

Definition dict_load (items : list json) : nat :=
  list_sum (map (fun item => match item with JDict _ => json_size item | _ => 0 end) items).

Definition cost_le (n : nat) (s : pass * world) : Prop :=
  queue_cost (queue (fst s)) <= n.

(** Each date was fetched once, every fetched date is among the processed
    dates, and the transcript requests sent are those that the ghost variable
    lists. *)
Definition is_http_get (ev : event) : bool :=
  match ev with HttpGet _ => true | _ => false end.

Definition fetch_once (s : pass * world) : Prop :=
  NoDup (fetched_dates (fst s))
  /\ (forall d, d ∈ fetched_dates (fst s) -> d ∈ _processed_lecture_dates (fst s))
  /\ length (filter is_http_get (trace (snd s))) = length (fetched_dates (fst s)).

(** Computations on the world that send no request with the session. *)
Definition quiet {A} (c : M A) : Prop :=
  forall w r w', c w = (r, w') ->
    filter is_http_get (trace w') = filter is_http_get (trace w).

(** The state between the registration of a new date [d] and the request
    for its transcript. *)
Definition pending (d : string) (s : pass * world) : Prop :=
  fetch_once s /\ (d ∉ fetched_dates (fst s)) /\ (d ∈ _processed_lecture_dates (fst s)).

(** Triples over the state of a computation: whatever [c] returns or raises
    from a state in [P], it leaves a state in [Q]. *)
Definition hoare {S A} (P : S -> Prop) (c : ST S A) (Q : S -> Prop) : Prop :=
  forall s r s', c s = (r, s') -> P s -> Q s'.

End Course.

(** ** Vocabulary of the statements about the retry loops *)

Module RetrySpec.
Import Videos.

Section Attempts.
Context {A : Type}.
Variable E : env.
(** What the body of the [try] yields, as a function of the trace. *)
Variable read : list event -> res A.
Variable url : string.

(** The world after [k] more loads of the page. *)
Definition after_loads (k : nat) (w : world) : world :=
  World (fs w) (trace w ++ repeat (DriverGet url) k).




End Attempts.

(** What [brute_force_get_url] reads in one attempt. *)
Definition scan_page (E : env) (suffix : string) (t : list event) : res (gset string) :=
  match page_source E t with
  | Ok src => Ok (list_to_set (findall suffix (unescape_slashes src)))
  | Raise e => Raise e
  end.

End RetrySpec.

(** ** Concrete lectures, pages and environments *)

Module Scenario.
Import Videos Course.

(** A parser for plain URLs of the form [scheme://netloc/path], on which it
    agrees with [urllib.parse.urlparse]. *)
Fixpoint until_slash (s : string) : string * string :=
  match s with
  | "" => ("", "")
  | String "/"%char _ => ("", s)
  | String c s' => let '(a, b) := until_slash s' in (String c a, b)
  end.

Fixpoint split_scheme (s : string) : string * string :=
  match s with
  | "" => ("", "")
  | String ":"%char (String "/"%char (String "/"%char rest)) => ("", rest)
  | String c s' => let '(a, b) := split_scheme s' in (String c a, b)
  end.

Definition plain_urlparse (v : json) : res parse_result :=
  match v with
  | JStr s =>
      let '(sch, rest) := split_scheme s in
      let '(host, p) := until_slash rest in
      Ok (ParseResult sch host p)
  | _ => Raise AttributeError
  end.

(** Dates already in ISO form: the calendar day is the first ten characters. *)
Definition iso_parse_date (v : json) : res string :=
  match v with
  | JStr s => if (String.length s <? 10)%nat then Raise ValueError else Ok (str_take 10 s)
  | _ => Raise TypeError
  end.

Definition plain_format (v : json) : string :=
  match v with
  | JStr s => s
  | JNum n => if (n <? 0)%Z then "-" ++ str_of_nat (Z.to_nat (- n)) else str_of_nat (Z.to_nat n)
  | JBool true => "True"
  | JBool false => "False"
  | JNull => "None"
  | _ => "?"
  end.

(** An environment in which the browser shows the page [src], the player
    never appears, the servers answer [status] with [body], and the mux tool
    behaves as [mux]. *)
Definition env_of (src : res string) (status : nat) (body : string) (mux : mux_outcome) : env :=
  {| driver_get := fun _ _ => Ok tt;
     page_source := fun _ => src;
     content_player_src := fun _ _ => Raise TimeoutException;
     http_get := fun _ _ => Ok (Response status body);
     http_head := fun _ _ => Ok (Response status "");
     hls_run := fun _ url output_dir =>
                  Ok (path_join output_dir (basename url ++ ".ts"), "segments");
     ffmpeg_run := fun _ _ _ => mux;
     urlparse := plain_urlparse;
     parse_date := iso_parse_date;
     format_value := plain_format;
     strip_illegal_path := fun s => s;
     urljoin := fun base u => u;
     m3u8_parse := fun _ => Ok (Some "https://h/v.m3u8", Some "https://h/a.m3u8");
     convert_vtt_to_text_ := fun s => s;
     clean_vtt_text := fun s => s |}.

Definition empty_world : world := World ∅ [].



(** A lesson with one video media. *)
Definition lesson_json : json :=
  JDict [("path_prefix", JStr "");
         ("type", JStr "SyllabusLessonType");
         ("lesson", JDict [
            ("startTimeUTC", JStr "2021-03-04T10:00:00.000Z");
            ("lesson", JDict [("id", JStr "L1"); ("name", JStr "Intro")]);
            ("medias", JList [JDict [("mediaType", JStr "Video"); ("id", JStr "M1")]])])].

(** The video object of [lesson_json] with a resolved list of two feeds. *)
Definition intro_video (alternative_feeds subtitles : bool) : EchoCloudVideo :=
  MkCloudVideo "https://echo360.org" (JStr "") lesson_json false alternative_feeds
    subtitles "Course" (Some "L1")
    (Some (JList [JStr "https://h/a.hd1.mp4"; JStr "https://h/a.hd2.mp4"]))
    "2021-03-04" (Some (JStr "Intro")).


(** A world with the raw artifacts of a manifest download. *)
Definition world_with_raw : world :=
  World {[ "out/Intro_video.ts" := File "v"; "out/Intro_audio.ts" := File "a" ]} [].

(** A second lesson of the same day, and the pass after the first one. *)
Definition second_lesson_json : json :=
  JDict [("type", JStr "SyllabusLessonType");
         ("lesson", JDict [
            ("startTimeUTC", JStr "2021-03-04T14:00:00.000Z");
            ("lesson", JDict [("id", JStr "L2"); ("name", JStr "Exercises")]);
            ("medias", JList [JDict [("mediaType", JStr "Video"); ("id", JStr "M2")]])])].

(** A lesson two days earlier. *)
Definition earlier_lesson_json : json :=
  JDict [("path_prefix", JStr "");
         ("type", JStr "SyllabusLessonType");
         ("lesson", JDict [
            ("startTimeUTC", JStr "2021-03-02T10:00:00.000Z");
            ("lesson", JDict [("id", JStr "L0"); ("name", JStr "Welcome")]);
            ("medias", JList [JDict [("mediaType", JStr "Video"); ("id", JStr "M0")]])])].


(** The same environment with a player that shows the stream [src]. *)
Definition with_player (src : string) (E : env) : env :=
  {| driver_get := driver_get E;
     page_source := page_source E;
     content_player_src := fun _ _ => Ok src;
     http_get := http_get E;
     http_head := http_head E;
     hls_run := hls_run E;
     ffmpeg_run := ffmpeg_run E;
     urlparse := urlparse E;
     parse_date := parse_date E;
     format_value := format_value E;
     strip_illegal_path := strip_illegal_path E;
     urljoin := urljoin E;
     m3u8_parse := m3u8_parse E;
     convert_vtt_to_text_ := convert_vtt_to_text_ E;
     clean_vtt_text := clean_vtt_text E |}.

(** A multi-part lecture without parts, created at an unknown time and
    updated at a known one. *)
Definition multipart_json : json :=
  JDict [("path_prefix", JStr "");
         ("lessons", JList []);
         ("groupInfo", JDict [("name", JStr "Week 1");
                              ("createdAt", JNull);
                              ("updatedAt", JStr "2021-03-04T10:00:00.000Z")])].

(** The page of the example of the specification: three direct-file URLs. *)
Definition three_urls_page : string :=
  "src: 'https://h/a.sd1.mp4', alt: 'https://h/a.hd2.mp4', 'https://h/a.hd1.mp4'".

(** Metadata without direct files but with one manifest on an offload
    host. *)
Definition manifest_only_json : json :=
  JDict [("path_prefix", JStr "");
         ("lesson", JDict [
            ("hasVideo", JBool true);
            ("hasAvailableVideo", JBool true);
            ("lesson", JDict [("id", JStr "L1"); ("name", JStr "Intro")]);
            ("medias", JList []);
            ("video", JDict [("media", JDict [("media", JDict [
               ("current", JDict [("primaryFiles", JList [])]);
               ("versions", JList [JDict [("manifests", JList [
                  JDict [("uri", JStr "https://offload.example.com/0/s1_av.m3u8")]])]])])])])])].

(** Metadata with two direct files and one manifest. *)
Definition both_kinds_json : json :=
  JDict [("path_prefix", JStr "");
         ("lesson", JDict [
            ("hasVideo", JBool true);
            ("hasAvailableVideo", JBool true);
            ("lesson", JDict [("id", JStr "L1"); ("name", JStr "Intro")]);
            ("medias", JList []);
            ("video", JDict [("media", JDict [("media", JDict [
               ("current", JDict [("primaryFiles", JList [
                  JDict [("s3Url", JStr "https://h/a.sd1.mp4")];
                  JDict [("s3Url", JStr "https://h/a.hd1.mp4")]])]);
               ("versions", JList [JDict [("manifests", JList [
                  JDict [("uri", JStr "https://offload.example.com/0/s1_av.m3u8")]])]])])])])])].

End Scenario.

(** ** [EchoCloudCourse._count_lectures] *)

Module Counting.
Import Videos Course.

(** The loop [for item in items] of [_count_lectures], with the running
    [count] and [queue]. *)
Fixpoint count_items (items : list json) (count : Z) (queue : list (json * string))
    : res (Z * list (json * string)) :=
  match items with
  | [] => Ok (count, queue)
  | item :: rest =>
      match item with
      | JDict _ =>
          let? lesson := is_lesson item in
          if lesson : bool then count_items rest (count + 1)%Z queue
          else
            let? group := contains item "groupInfo" in
            if group : bool then
              let? lessons := getitem item "lessons" in
              count_items rest count (queue ++ [(lessons, "")])%list
            else count_items rest count queue
      | _ => count_items rest count queue
      end
  end.

(** [while queue], for at most [fuel] entries of the queue. *)
Fixpoint count_loop (fuel : nat) (count : Z) (queue : list (json * string)) : res Z :=
  match fuel with
  | O => Raise OutOfFuel
  | S fuel' =>
      match queue with
      | [] => Ok count
      | (items, _) :: rest =>
          let? items := iterate items in
          let? r := count_items items count rest in
          count_loop fuel' (fst r) (snd r)
      end
  end.

Definition _count_lectures (videos_json : json) : res Z :=
  count_loop (pass_budget videos_json) 0 [(videos_json, "")].

(** [self._lecture_count = self._count_lectures(videos_json)] followed by
    the pass of [get_videos], for a course object in state [p]. *)
Definition counted_pass (E : env) (hostname course_name : string)
    (alternative_feeds subtitles : bool) (videos_json : json)
    : ST (pass * world) (list EchoCloudVideo) :=
  let* count := lift (_count_lectures videos_json) in
  do update (fun p => Pass count (_processed_lectures p) (_skipped_lectures p)
                        (_processed_lecture_dates p) (queue p) (found_future_lecture p)
                        (processed_videos p) (filename p) (fetched_dates p)) in
  get_videos E hostname course_name alternative_feeds subtitles videos_json.

End Counting.

(** ** Vocabulary of the statements about files *)

Module FileSpec.

(** Every path present in [w] holds in [w'] what it held in [w]. *)
Definition fs_kept (w w' : world) : Prop :=
  forall p, is_Some (fs w !! p) -> fs w' !! p = fs w !! p.

(** Computations that leave every existing file and directory as it is,
    whatever they return or raise. *)
Definition keeps_files {A} (c : M A) : Prop :=
  forall w r w', c w = (r, w') -> fs_kept w w'.

(** Computations that remove no path. *)
Definition keeps_paths {A} (c : M A) : Prop :=
  forall w r w', c w = (r, w') -> forall p, is_Some (fs w !! p) -> is_Some (fs w' !! p).

End FileSpec.

(** ** Further lectures and courses *)

Module Cases.
Import Videos Course Scenario.


(** A video of the legacy platform whose start time is a plain string. *)
Definition legacy_string_date_json : json :=
  JDict [("richMedia", JStr "https://old/v1");
         ("startTime", JStr "2019-04-25T09:00:00");
         ("title", JStr "First")].

(** A lecture with slides and no video, asked for its subtitles. *)
Definition slides_only_json : json :=
  JDict [("path_prefix", JStr "");
         ("type", JStr "SyllabusLessonType");
         ("lesson", JDict [
            ("startTimeUTC", JStr "2021-03-04T10:00:00.000Z");
            ("lesson", JDict [("id", JStr "L1"); ("name", JStr "Intro")]);
            ("medias", JList [JDict [("mediaType", JStr "Presentation");
                                     ("id", JStr "P1");
                                     ("title", JStr "slides.pdf")]])])].

Definition slides_only_video : EchoCloudVideo :=
  MkCloudVideo "https://echo360.org" (JStr "") slides_only_json false false true
    "Course" (Some "L1") (Some JNull) "2021-03-04" (Some (JStr "Intro")).

(** A world in which the first feed of the lecture was downloaded before. *)
Definition world_with_first_feed : world :=
  World {[ "Course/dirty/Intro1.mp4" := File "old" ]} [].

(** A lesson whose metadata lists no media at all. *)
Definition no_medias_json : json :=
  JDict [("type", JStr "SyllabusLessonType");
         ("lesson", JDict [
            ("startTimeUTC", JStr "2021-03-04T10:00:00.000Z");
            ("lesson", JDict [("id", JStr "L1"); ("name", JStr "Intro")])])].

(** A course with one lesson at the top and two in a folder. *)
Definition course_with_folder_json : json :=
  JList [lesson_json;
         JDict [("type", JStr "SyllabusGroupType");
                ("groupInfo", JDict [("name", JStr "Week 2")]);
                ("lessons", JList [second_lesson_json; earlier_lesson_json])]].

End Cases.

(** * Properties *)

Import Videos Course RetrySpec Scenario.

(** ** Order and sorting *)

Lemma ltb_false_le (x y : string) : String.ltb y x = false -> String.le x y.
Proof.
  unfold String.ltb, String.le, String.leb.
  rewrite (String.compare_antisym y x).
  destruct (String.compare x y); simpl; intros H; try discriminate; exact I.
Qed.

Lemma ltb_true_le (x y : string) : String.ltb y x = true -> String.le y x.
Proof.
  unfold String.ltb, String.le, String.leb.
  destruct (String.compare y x); simpl; intros H; try discriminate; exact I.
Qed.

Lemma str_lt_iff (x y : string) : str_lt x y <-> String.le x y /\ x <> y.
Proof.
  unfold str_lt, String.ltb, String.le, String.leb. split.
  - destruct (String.compare x y) eqn:Hc; try discriminate. intros _. split; [exact I|].
    intros ->. assert (String.compare y y = Eq) as Hr.
    { clear Hc. induction y as [|a y IH]; simpl; [done|].
      unfold Ascii.compare. rewrite N.compare_refl. exact IH. }
    congruence.
  - intros [Hle Hne]. destruct (String.compare x y) eqn:Hc; try done.
    apply String.compare_eq_iff in Hc. contradiction.
Qed.

Section SortFacts.
Context {A : Type} (key : A -> string).

Lemma insert_by_Permutation (x : A) (l : list A) : insert_by key x l ≡ₚ x :: l.
Proof.
  induction l as [|y l IH]; simpl; [done|].
  destruct (String.ltb (key y) (key x)); [|done].
  rewrite IH. apply Permutation_swap.
Qed.

Lemma sort_by_Permutation (l : list A) : sort_by key l ≡ₚ l.
Proof.
  induction l as [|x l IH]; simpl; [done|].
  rewrite insert_by_Permutation. by rewrite IH.
Qed.

Lemma key_le_trans (a b c : A) : key_le key a b -> key_le key b c -> key_le key a c.
Proof. unfold key_le. intros. by etrans. Qed.

Lemma insert_by_StronglySorted (x : A) (l : list A) :
  StronglySorted (key_le key) l -> StronglySorted (key_le key) (insert_by key x l).
Proof.
  induction 1 as [|y l Hs IH Hall]; simpl.
  - repeat constructor.
  - destruct (String.ltb (key y) (key x)) eqn:Hlt.
    + constructor; [exact IH|].
      rewrite insert_by_Permutation. constructor; [|exact Hall].
      by apply ltb_true_le.
    + apply ltb_false_le in Hlt.
      constructor; [by constructor|].
      constructor; [exact Hlt|].
      eapply Forall_impl; [exact Hall|].
      intros z Hz. by eapply key_le_trans.
Qed.

Lemma sort_by_StronglySorted (l : list A) : StronglySorted (key_le key) (sort_by key l).
Proof.
  induction l as [|x l IH]; simpl; [constructor|].
  by apply insert_by_StronglySorted.
Qed.
End SortFacts.

Lemma sorted_Permutation (l : list string) : sorted l ≡ₚ l.
Proof. apply sort_by_Permutation. Qed.

Lemma sorted_le (l : list string) : StronglySorted String.le (sorted l).
Proof. apply (sort_by_StronglySorted (fun s => s)). Qed.

Lemma sorted_strict (l : list string) : NoDup l -> StronglySorted str_lt (sorted l).
Proof.
  intros Hnd. rewrite <- sorted_Permutation in Hnd.
  pose proof (sorted_le l) as Hs. induction Hs as [|x l' Hs IH Hall].
  - constructor.
  - apply NoDup_cons in Hnd as [Hx Hnd]. constructor; [by apply IH|].
    apply Forall_forall. intros y Hy. apply str_lt_iff. split.
    + by eapply Forall_forall in Hall.
    + intros ->. contradiction.
Qed.

(** A strictly ascending list is determined by its elements. *)
Lemma ascending_unique (l1 l2 : list string) :
  StronglySorted str_lt l1 -> StronglySorted str_lt l2 ->
  (forall u, u ∈ l1 <-> u ∈ l2) -> l1 = l2.
Proof.
  intros H1 H2 Hel.
  assert (forall l, StronglySorted str_lt l -> StronglySorted String.le l /\ NoDup l) as Hsplit.
  { induction 1 as [|x l Hs [IH1 IH2] Hall]; [split; constructor|]. split.
    - constructor; [done|]. eapply Forall_impl; [exact Hall|].
      intros y Hy. by apply str_lt_iff in Hy as [? ?].
    - constructor; [|done]. intros Hin.
      eapply Forall_forall in Hall; [|exact Hin].
      apply str_lt_iff in Hall as [_ Hne]. by apply Hne. }
  destruct (Hsplit _ H1) as [S1 N1], (Hsplit _ H2) as [S2 N2].
  apply (StronglySorted_unique String.le); [done..|].
  by apply NoDup_Permutation.
Qed.

(** ** Resolution of the stream location *)

Lemma retry_loop_first_try {A} E (body : M A) url max_attempts fuel stale refresh w v w' :
  driver_get E (trace w) url = Ok tt ->
  body (log (DriverGet url) w) = (Ok v, w') ->
  retry_loop E body url max_attempts (S fuel) stale refresh w = (Ok v, w').
Proof.
  intros Hnav Hbody. simpl. unfold bind, driver_get_. rewrite Hnav, Hbody. reflexivity.
Qed.

Lemma brute_force_get_url_first_try E url max_attempts suffix w src :
  driver_get E (trace w) url = Ok tt ->
  page_source E (trace w ++ [DriverGet url]) = Ok src ->
  brute_force_get_url E url max_attempts suffix w
  = (Ok (list_to_set (findall suffix (unescape_slashes src))), log (DriverGet url) w).
Proof.
  intros Hnav Hsrc. unfold brute_force_get_url, retry_budget.
  replace (2 * max_attempts + 1) with (S (2 * max_attempts)) by lia.
  apply retry_loop_first_try; [exact Hnav|].
  unfold bind, page_source_, ret. simpl. rewrite Hsrc. reflexivity.
Qed.

(** C1, as amended. The page-scan file strategy returns the first two of the
    found URLs in ascending code point order: whenever the scan of the page
    finds a non-empty set [urls], the result is [take 2 l] for the strictly
    ascending list [l] of the elements of [urls]. *)
Theorem page_scan_takes_first_two_ascending E video_url max_attempts w urls w' :
  brute_force_get_url E video_url max_attempts "mp4" w = (Ok urls, w') ->
  urls <> ∅ ->
  exists l : list string,
    brute_force_get_mp4_url E video_url max_attempts w = (Ok (take 2 l), w')
    /\ StronglySorted str_lt l
    /\ (forall u, u ∈ l <-> u ∈ urls).
Proof.
  intros Hscan Hne. exists (sorted (elements urls)). split; [|split].
  - unfold brute_force_get_mp4_url, bind. rewrite Hscan.
    destruct (size urls =? 0)%nat eqn:Hsz; [|reflexivity].
    apply Nat.eqb_eq, size_empty_iff in Hsz.
    exfalso. apply Hne. by apply leibniz_equiv.
  - apply sorted_strict, NoDup_elements.
  - intros u. rewrite sorted_Permutation. apply elem_of_elements.
Qed.

Lemma page_scan_takes_first_two_ascending_witness :
  let E := env_of (Ok three_urls_page) 200 "" MuxExecutableNotFound in
  let urls : gset string :=
    list_to_set ["https://h/a.sd1.mp4"; "https://h/a.hd2.mp4"; "https://h/a.hd1.mp4"] in
  urls <> ∅
  /\ brute_force_get_mp4_url E "https://h/lesson/L1/classroom" 5 empty_world
     = (Ok ["https://h/a.hd1.mp4"; "https://h/a.hd2.mp4"],
        log (DriverGet "https://h/lesson/L1/classroom") empty_world)
  /\ exists l : list string,
    brute_force_get_mp4_url E "https://h/lesson/L1/classroom" 5 empty_world
    = (Ok (take 2 l), log (DriverGet "https://h/lesson/L1/classroom") empty_world)
    /\ StronglySorted str_lt l
    /\ (forall u, u ∈ l <-> u ∈ urls).
Proof.
  intros E urls.
  assert (urls <> ∅) as Hne.
  { intros Heq. apply (f_equal size) in Heq. vm_compute in Heq. discriminate. }
  split; [exact Hne|]. split; [vm_compute; reflexivity|].
  apply (page_scan_takes_first_two_ascending E); [|exact Hne].
  exact (brute_force_get_url_first_try E "https://h/lesson/L1/classroom" 5 "mp4"
           empty_world three_urls_page eq_refl eq_refl).
Defined.

(** C1, the claim as stated fails. On the page of the example the scan
    finds the three URLs of the claim, and the strategy returns the two
    smallest, not the two largest: neither the top-2 nor the top-1 selection
    is the one the claim names. *)
Lemma page_scan_not_descending :
  let E := env_of (Ok three_urls_page) 200 "" MuxExecutableNotFound in
  let selected := fst (brute_force_get_mp4_url E "https://h/lesson/L1/classroom" 5 empty_world) in
  findall "mp4" (unescape_slashes three_urls_page)
    = ["https://h/a.sd1.mp4"; "https://h/a.hd2.mp4"; "https://h/a.hd1.mp4"]
  /\ selected = Ok ["https://h/a.hd1.mp4"; "https://h/a.hd2.mp4"]
  /\ selected <> Ok ["https://h/a.sd1.mp4"; "https://h/a.hd2.mp4"]
  /\ (take 1 <$> match selected with Ok l => Some l | Raise _ => None end)
     <> Some ["https://h/a.sd1.mp4"].
Proof.
  vm_compute. repeat split; congruence.
Qed.

Lemma from_json_mp4_last video_json files urls url :
  primary_files video_json = Ok (JList files) ->
  mapM (fun obj => getitem obj "s3Url") files = Ok urls ->
  last urls = Some url ->
  from_json_mp4 video_json = Ok url.
Proof.
  intros Hfiles Hurls Hlast. unfold from_json_mp4. rewrite Hfiles. simpl.
  rewrite Hurls. simpl.
  destruct urls as [|u urls _] using rev_ind; [discriminate|].
  rewrite last_snoc in Hlast. injection Hlast as ->.
  rewrite rev_app_distr. reflexivity.
Qed.

(** C6. When the metadata declares a non-empty list of direct files, each
    with its [s3Url], resolution returns the URL of the last entry of that
    list; it does so whatever manifests the metadata holds and without any
    page load (the world is unchanged), so no later strategy decides. *)
Theorem direct_file_candidate_wins E hostname video_json video_url max_attempts w
    files urls url :
  primary_files video_json = Ok (JList files) ->
  mapM (fun obj => getitem obj "s3Url") files = Ok urls ->
  last urls = Some url ->
  from_json_mp4 video_json = Ok url
  /\ EchoCloudVideo_loop_find_m3u8_url E hostname video_json video_url max_attempts w
     = (Ok url, w).
Proof.
  intros Hfiles Hurls Hlast.
  pose proof (from_json_mp4_last _ _ _ _ Hfiles Hurls Hlast) as Hmp4.
  split; [exact Hmp4|].
  unfold EchoCloudVideo_loop_find_m3u8_url, bind, catch, lift. rewrite Hmp4. reflexivity.
Qed.

Lemma direct_file_candidate_wins_witness :
  let E := env_of (Ok three_urls_page) 200 "" MuxExecutableNotFound in
  let files := [JDict [("s3Url", JStr "https://h/a.sd1.mp4")];
                JDict [("s3Url", JStr "https://h/a.hd1.mp4")]] in
  let urls := [JStr "https://h/a.sd1.mp4"; JStr "https://h/a.hd1.mp4"] in
  primary_files both_kinds_json = Ok (JList files)
  /\ mapM (fun obj => getitem obj "s3Url") files = Ok urls
  /\ last urls = Some (JStr "https://h/a.hd1.mp4")
  /\ from_json_m3u8 E "https://echo360.org" both_kinds_json
     = Ok (JList [JStr "https://content.echo360.org/0/s1_av.m3u8"])
  /\ from_json_mp4 both_kinds_json = Ok (JStr "https://h/a.hd1.mp4")
  /\ EchoCloudVideo_loop_find_m3u8_url E "https://echo360.org" both_kinds_json
       "https://echo360.org/lesson/L1/classroom" 5 empty_world
     = (Ok (JStr "https://h/a.hd1.mp4"), empty_world).
Proof.
  intros E files urls.
  split; [reflexivity|]. split; [reflexivity|]. split; [reflexivity|].
  split; [reflexivity|].
  apply (direct_file_candidate_wins E "https://echo360.org" both_kinds_json
           "https://echo360.org/lesson/L1/classroom" 5 empty_world files urls);
    reflexivity.
Defined.

(** C2, what the code does instead. The value of the embedded-manifest
    strategy is stored and never read: when the direct-file strategy fails,
    the page scans alone decide. *)
Lemma embedded_manifest_value_unused E hostname video_json video_url max_attempts w e :
  from_json_mp4 video_json = Raise e ->
  is_Exception e = true ->
  (forall e', from_json_m3u8 E hostname video_json = Raise e' -> is_Exception e' = true) ->
  EchoCloudVideo_loop_find_m3u8_url E hostname video_json video_url max_attempts w
  = match brute_force_get_mp4_url E video_url max_attempts w with
    | (Ok urls, w') => (Ok (JList (JStr <$> urls)), w')
    | (Raise e', w') =>
        if is_Exception e' then
          match brute_force_get_url E video_url max_attempts "m3u8" w' with
          | (Ok found, w'') => (select_av (FromPage found), w'')
          | (Raise e'', w'') => (Raise e'', w'')
          end
        else (Raise e', w')
    end.
Proof.
  intros Hmp4 He Hm3u8.
  unfold EchoCloudVideo_loop_find_m3u8_url, bind, catch, lift. rewrite Hmp4, He.
  destruct (from_json_m3u8 E hostname video_json) as [v|e'] eqn:Hm.
  - destruct (brute_force_get_mp4_url E video_url max_attempts w) as [[urls|e1] w1]; simpl.
    + reflexivity.
    + destruct (is_Exception e1); reflexivity.
  - rewrite (Hm3u8 e' eq_refl).
    destruct (brute_force_get_mp4_url E video_url max_attempts w) as [[urls|e1] w1]; simpl.
    + reflexivity.
    + destruct (is_Exception e1); reflexivity.
Qed.

(** C2, the code at the failing input: the metadata has no direct file and
    one manifest, which the embedded-manifest strategy rewrites to the
    canonical host, and the page shows direct-file URLs. Resolution returns
    the result of the page scan, not the rewritten manifest. When the page
    shows manifests instead, it returns the manifests of the page. *)
Theorem embedded_manifest_result_dropped :
  let E := env_of (Ok three_urls_page) 200 "" MuxExecutableNotFound in
  let E' := env_of (Ok "https://h/x/s1_av.m3u8") 200 "" MuxExecutableNotFound in
  let rewritten := JList [JStr "https://content.echo360.org/0/s1_av.m3u8"] in
  from_json_mp4 manifest_only_json = Raise ValueError
  /\ from_json_m3u8 E "https://echo360.org" manifest_only_json = Ok rewritten
  /\ fst (EchoCloudVideo_loop_find_m3u8_url E "https://echo360.org" manifest_only_json
            "https://echo360.org/lesson/L1/classroom" 5 empty_world)
     = Ok (JList [JStr "https://h/a.hd1.mp4"; JStr "https://h/a.hd2.mp4"])
  /\ from_json_m3u8 E' "https://echo360.org" manifest_only_json = Ok rewritten
  /\ fst (EchoCloudVideo_loop_find_m3u8_url E' "https://echo360.org" manifest_only_json
            "https://echo360.org/lesson/L1/classroom" 5 empty_world)
     = Ok (JList [JStr "https://h/x/s1_av.m3u8"]).
Proof.
  vm_compute. repeat split.
Qed.

(** ** The retry loops *)

Section RetryFacts.
Context {A : Type}.
Variable E : env.
Variable read : list event -> res A.
Variable body : M A.
Variable url : string.
Variable max_attempts : nat.
Hypothesis body_reads : forall w, body w = (read (trace w), w).


Lemma after_loads_S (k : nat) (w : world) :
  after_loads url (S k) w = after_loads url k (log (DriverGet url) w).
Proof.
  unfold after_loads, log. simpl. f_equal.
  rewrite <- app_assoc. reflexivity.
Qed.



(** The budget of iterations is never the reason for stopping: any larger
    budget gives the same result. *)
Lemma retry_loop_enough_fuel (fuel1 fuel2 stale refresh : nat) (w : world) :
  (max_attempts - stale) + (max_attempts - refresh) < fuel1 ->
  (max_attempts - stale) + (max_attempts - refresh) < fuel2 ->
  retry_loop E body url max_attempts fuel1 stale refresh w
  = retry_loop E body url max_attempts fuel2 stale refresh w.
Proof.
  revert fuel2 stale refresh w.
  induction fuel1 as [|fuel1 IH]; intros fuel2 stale refresh w H1 H2; [lia|].
  destruct fuel2 as [|fuel2]; [lia|].
  cbn [retry_loop]. unfold bind, driver_get_.
  destruct (driver_get E (trace w) url) as [[]|e]; [|done].
  rewrite body_reads.
  destruct (read (trace (log (DriverGet url) w))) as [v|e]; [done|].
  destruct e; try done.
  - destruct (max_attempts <=? refresh)%nat eqn:Hle; [done|].
    apply Nat.leb_gt in Hle. apply IH; lia.
  - destruct (max_attempts <=? stale)%nat eqn:Hle; [done|].
    apply Nat.leb_gt in Hle. apply IH; lia.
Qed.
End RetryFacts.

Lemma brute_force_body_reads E suffix (w : world) :
  (let* src := page_source_ E in
   ret (list_to_set (findall suffix (unescape_slashes src)) : gset string)) w
  = (scan_page E suffix (trace w), w).
Proof.
  unfold bind, page_source_, ret, scan_page.
  destruct (page_source E (trace w)); reflexivity.
Qed.




(** ** Dates *)

(** C8. For a multi-part lecture whose [groupInfo] has [createdAt] equal to
    [None], the fallback reads the key [u'updatedAt'], quotes and prefix
    included. Metadata does not carry a key of that name, so the lookup raises
    [KeyError] and [get_date] returns 1970-01-01, whatever else [groupInfo]
    holds, a valid [updatedAt] included. *)
Theorem multipart_date_falls_back E video_json groupInfo :
  getitem video_json "groupInfo" = Ok (JDict groupInfo) ->
  assoc "createdAt" groupInfo = Some JNull ->
  assoc "u'updatedAt'" groupInfo = None ->
  EchoCloudVideo_extract_date true video_json = Raise KeyError
  /\ get_date E (EchoCloudVideo_extract_date true) video_json = Ok "1970-01-01".
Proof.
  intros Hg Hc Hu.
  assert (EchoCloudVideo_extract_date true video_json = Raise KeyError) as Hx.
  { unfold EchoCloudVideo_extract_date. rewrite Hg. cbn [rbind getitem].
    rewrite Hc. cbn. rewrite Hu. reflexivity. }
  split; [exact Hx|]. unfold get_date. rewrite Hx. reflexivity.
Qed.

Lemma multipart_date_falls_back_witness :
  let E := env_of (Ok "") 200 "" MuxExecutableNotFound in
  let groupInfo := [("name", JStr "Week 1"); ("createdAt", JNull);
                    ("updatedAt", JStr "2021-03-04T10:00:00.000Z")] in
  getitem multipart_json "groupInfo" = Ok (JDict groupInfo)
  /\ assoc "createdAt" groupInfo = Some JNull
  /\ assoc "u'updatedAt'" groupInfo = None
  /\ (let? updatedAt := getitem (JDict groupInfo) "updatedAt" in parse_date E updatedAt)
     = Ok "2021-03-04"
  /\ EchoCloudVideo_extract_date true multipart_json = Raise KeyError
  /\ get_date E (EchoCloudVideo_extract_date true) multipart_json = Ok "1970-01-01".
Proof.
  intros E groupInfo. repeat (split; [reflexivity|]).
  apply (multipart_date_falls_back E multipart_json groupInfo); reflexivity.
Defined.

(** The constructor reaches that path: the date of the multi-part lecture
    object is the fallback. *)
Lemma multipart_video_date :
  let E := env_of (Ok "") 200 "" MuxExecutableNotFound in
  _date <$> (match fst (EchoCloudVideo_init E multipart_json "https://echo360.org"
                          false false None empty_world) with
             | Ok v => Some v | Raise _ => None end)
  = Some "1970-01-01".
Proof. reflexivity. Qed.

(** ** Downloading and remuxing *)








(** The mixing step inside [download_single]: a manifest download with the
    mux tool missing returns [True], keeps the raw audio and video files and
    leaves no file at the target path. *)
Lemma manifest_download_without_mux_tool :
  let E := env_of (Ok "") 200 "#EXTM3U" MuxExecutableNotFound in
  let '(r, w') := download_single E (intro_video false false)
                    (JStr "https://h/x/s1_av.m3u8") "out" "Intro" empty_world in
  r = Ok true
  /\ fs w' !! "out/Intro_video.ts" = Some (File "segments")
  /\ fs w' !! "out/Intro_audio.ts" = Some (File "segments")
  /\ fs w' !! "out/Intro.mp4" = None
  /\ trace w' = [HttpGet "https://h/x/s1_av.m3u8";
                 HlsRun "https://h/a.m3u8" "out";
                 HlsRun "https://h/v.m3u8" "out";
                 FFmpegRun ["out/Intro_video.ts"; "out/Intro_audio.ts"] "out/Intro.mp4"].
Proof. vm_compute. repeat split. Qed.





(** The files that the two settings of the flag leave behind for the two
    resolved feeds. *)
Lemma alternative_feeds_outputs :
  let E := env_of (Ok "") 200 "data" MuxExecutableNotFound in
  let off := snd (download E (intro_video false false) "out" "Intro" empty_world) in
  let on := snd (download E (intro_video true false) "out" "Intro" empty_world) in
  trace off = [HttpGet "https://h/a.hd1.mp4"]
  /\ fs off !! "out/Course/dirty/Intro.mp4" = Some (File "data")
  /\ fs off !! "out/Course/dirty/Intro1.mp4" = None
  /\ trace on = [HttpGet "https://h/a.hd1.mp4"; HttpGet "https://h/a.hd2.mp4"]
  /\ fs on !! "out/Course/dirty/Intro1.mp4" = Some (File "data")
  /\ fs on !! "out/Course/dirty/Intro2.mp4" = Some (File "data")
  /\ fs on !! "out/Course/dirty/Intro.mp4" = None.
Proof. vm_compute. repeat split. Qed.

(** ** The pass over the course *)

Section HoareRules.
Context {S : Type}.
Implicit Types P Q R : S -> Prop.

Lemma hoare_ret {A} P (a : A) : hoare P (ret a) P.
Proof. intros s r s' [= <- <-] H. exact H. Qed.

Lemma hoare_raise {A} P (e : exn) : hoare P (raise (A:=A) e) P.
Proof. intros s r s' [= <- <-] H. exact H. Qed.

Lemma hoare_lift {A} P (x : res A) : hoare P (lift x) P.
Proof. intros s r s' [= <- <-] H. exact H. Qed.

Lemma hoare_modify P Q (f : S -> S) :
  (forall s, P s -> Q (f s)) -> hoare P (modify f) Q.
Proof. intros Hf s r s' [= <- <-] H. by apply Hf. Qed.

Lemma hoare_weaken {A} P P' Q Q' (c : ST S A) :
  (forall s, P s -> P' s) -> (forall s, Q' s -> Q s) ->
  hoare P' c Q' -> hoare P c Q.
Proof. intros HP HQ Hc s r s' Hrun H. eapply HQ, Hc; eauto. Qed.

Lemma hoare_bind {A B} P R Q (c : ST S A) (k : A -> ST S B) :
  hoare P c R -> (forall s, R s -> Q s) -> (forall a, hoare R (k a) Q) ->
  hoare P (bind c k) Q.
Proof.
  intros Hc HRQ Hk s r s' Hrun HP. unfold bind in Hrun.
  destruct (c s) as [[a|e] s1] eqn:Hcs.
  - eapply Hk; [exact Hrun|]. eapply Hc; eauto.
  - injection Hrun as <- <-. eapply HRQ, Hc; eauto.
Qed.

Lemma hoare_seq {A B} P (c : ST S A) (k : A -> ST S B) :
  hoare P c P -> (forall a, hoare P (k a) P) -> hoare P (bind c k) P.
Proof. intros Hc Hk. eapply hoare_bind; eauto. Qed.

Lemma hoare_catch {A} P Q (c : ST S A) : hoare P c Q -> hoare P (catch c) Q.
Proof.
  intros Hc s r s' Hrun HP. unfold catch in Hrun.
  destruct (c s) as [[a|e] s1] eqn:Hcs.
  - injection Hrun as <- <-. eapply Hc; eauto.
  - destruct (is_Exception e); injection Hrun as <- <-; eapply Hc; eauto.
Qed.
End HoareRules.

Lemma quiet_ret {A} (a : A) : quiet (ret a).
Proof. by intros w r w' [= <- <-]. Qed.

Lemma quiet_bind {A B} (c : M A) (k : A -> M B) :
  quiet c -> (forall a, quiet (k a)) -> quiet (bind c k).
Proof.
  intros Hc Hk w r w' Hrun. unfold bind in Hrun.
  destruct (c w) as [[a|e] w1] eqn:Hcw.
  - rewrite (Hk _ _ _ _ Hrun). eapply Hc; eauto.
  - injection Hrun as <- <-. eapply Hc; eauto.
Qed.

Lemma quiet_makedirs p : quiet (makedirs p).
Proof.
  intros w r w'. unfold makedirs.
  destruct (fs w !! p) as [[|]|]; by intros [= <- <-].
Qed.

Lemma quiet_exists p : quiet (exists_ p).
Proof. by intros w r w' [= <- <-]. Qed.

Lemma quiet_write_file p c : quiet (write_file p c).
Proof.
  intros w r w'. unfold write_file.
  destruct (fs w !! p) as [[|]|]; by intros [= <- <-].
Qed.

Lemma quiet_read_file p : quiet (read_file p).
Proof.
  intros w r w'. unfold read_file.
  destruct (fs w !! p) as [[|]|]; by intros [= <- <-].
Qed.

Lemma quiet_convert_vtt_to_text E vtt_path output_dir :
  quiet (convert_vtt_to_text E vtt_path output_dir).
Proof.
  unfold convert_vtt_to_text.
  apply quiet_bind; [apply quiet_makedirs|intros _].
  apply quiet_bind; [apply quiet_read_file|intros text].
  apply quiet_bind; [apply quiet_write_file|intros _]. apply quiet_ret.
Qed.

Lemma quiet_driver_get E url : quiet (driver_get_ E url).
Proof.
  intros w r w' [= <- <-]. cbn [trace log].
  rewrite filter_app. cbn. by rewrite app_nil_r.
Qed.

Lemma quiet_page_source E : quiet (page_source_ E).
Proof. by intros w r w' [= <- <-]. Qed.

Section PassFacts.
Variable E : env.
Variable hostname course_name : string.

(** A triple on the pass and the world holds for a computation on the
    world when the pass does not matter to it. *)
Lemma hoare_in_world {A} (P : pass * world -> Prop) (c : M A) :
  (forall p w w', P (p, w) ->
     filter is_http_get (trace w') = filter is_http_get (trace w) -> P (p, w')) ->
  quiet c -> hoare P (in_world c) P.
Proof.
  intros HP Hc [p w] r [p' w'] Hrun H. unfold in_world in Hrun. cbn in Hrun.
  destruct (c w) as [r1 w1] eqn:Hcw. injection Hrun as <- <- <-.
  eapply HP; [exact H|]. eapply Hc; eauto.
Qed.

Lemma hoare_get_pass {B} (P Q : pass * world -> Prop) (k : pass -> ST (pass * world) B) :
  (forall st, hoare (fun s => P s /\ fst s = st) (k st) Q) ->
  hoare P (bind get_pass k) Q.
Proof.
  intros Hk s r s' Hrun HP. unfold bind, get_pass in Hrun.
  eapply Hk; [exact Hrun|]. by split.
Qed.

Lemma fetch_once_world p w w' :
  fetch_once (p, w) ->
  filter is_http_get (trace w') = filter is_http_get (trace w) ->
  fetch_once (p, w').
Proof. unfold fetch_once. cbn. intros (?&?&?) ->. auto. Qed.

Lemma pending_world d p w w' :
  pending d (p, w) ->
  filter is_http_get (trace w') = filter is_http_get (trace w) ->
  pending d (p, w').
Proof. intros (?&?&?) ?. split; [by eapply fetch_once_world|done]. Qed.

Lemma session_get_transcript_once d vtt_url :
  hoare (pending d) (session_get_transcript E d vtt_url) fetch_once.
Proof.
  intros [p w] r [p' w'] Hrun ((Hnd & Hsub & Hlen) & Hfresh & Hin).
  unfold session_get_transcript, bind, update, modify, in_world, http_get_ in Hrun.
  cbn in Hrun. injection Hrun as <- <- <-. cbn in *.
  split; [|split].
  - apply NoDup_app. split; [done|]. split; [|apply NoDup_singleton].
    intros x Hx ->%list_elem_of_singleton. contradiction.
  - intros x [Hx | ->%list_elem_of_singleton]%elem_of_app; auto.
  - change (length (filter is_http_get (trace w ++ [HttpGet vtt_url])%list)
            = length (fetched_dates p ++ [d])%list).
    rewrite filter_app, !length_app, Hlen. reflexivity.
Qed.
End PassFacts.

Section PassInvariant.
Variable E : env.
Variable hostname course_name : string.

Lemma hoare_in_world_once {A} (c : M A) :
  quiet c -> hoare fetch_once (in_world c) fetch_once.
Proof. apply hoare_in_world. intros p w w'. apply fetch_once_world. Qed.

Lemma hoare_in_world_pending {A} d (c : M A) :
  quiet c -> hoare (pending d) (in_world c) (pending d).
Proof. apply hoare_in_world. intros p w w'. apply pending_world. Qed.

Lemma hoare_get_pass_inv {B} (P : pass * world -> Prop) (k : pass -> ST (pass * world) B) :
  (forall st, hoare P (k st) P) -> hoare P (bind get_pass k) P.
Proof.
  intros Hk. apply hoare_get_pass. intros st.
  eapply hoare_weaken; [| |apply Hk]; [by intros s [? _]|auto].
Qed.

(** Updates of the pass that leave the dates and the ghost variable alone. *)
Lemma hoare_update_frame (P : pass * world -> Prop) (f : pass -> pass) :
  (forall p w, P (p, w) -> P (f p, w)) -> hoare P (update f) P.
Proof. intros Hf. apply hoare_modify. intros [p w]. apply Hf. Qed.

Lemma pending_fetch_once d s : pending d s -> fetch_once s.
Proof. by intros [? _]. Qed.

Lemma process_transcript_once item :
  hoare fetch_once (process_transcript E hostname course_name item) fetch_once.
Proof.
  unfold process_transcript.
  apply hoare_seq; [apply hoare_lift|intros media_id].
  destruct (is_None media_id); [apply hoare_ret|].
  apply hoare_seq; [apply hoare_lift|intros lecture_name].
  apply hoare_seq; [apply hoare_lift|intros lecture_date].
  apply hoare_seq; [apply hoare_lift|intros d].
  apply hoare_get_pass. intros st.
  destruct (bool_decide (d ∈ _processed_lecture_dates st)) eqn:Hd.
  - eapply hoare_bind with (R := fetch_once); [|auto|intros; apply hoare_ret].
    apply hoare_modify. intros [p w] [H _]. exact H.
  - apply bool_decide_eq_false in Hd.
    eapply hoare_bind with (R := pending d); [|apply pending_fetch_once|intros _].
    { apply hoare_modify. intros [p w] [(Hnd & Hsub & Hlen) Hst].
      cbn in Hst. subst st. split; [split; [|split]|split]; cbn.
      - exact Hnd.
      - intros x Hx. apply elem_of_union_r. by apply Hsub.
      - exact Hlen.
      - intros Hin. apply Hd. by apply Hsub.
      - apply elem_of_union_l. by apply elem_of_singleton. }
    eapply hoare_bind with (R := pending d); [|apply pending_fetch_once|intros _].
    { apply hoare_update_frame. intros p w H. exact H. }
    eapply hoare_bind with (R := pending d); [|apply pending_fetch_once|intros _].
    { apply hoare_in_world_pending, quiet_makedirs. }
    eapply hoare_bind with (R := pending d); [|apply pending_fetch_once|intros _].
    { apply hoare_in_world_pending, quiet_makedirs. }
    eapply hoare_bind with (R := pending d); [|apply pending_fetch_once|intros have].
    { apply hoare_in_world_pending, quiet_exists. }
    destruct have; cbn [negb].
    { eapply hoare_weaken; [apply pending_fetch_once| |apply hoare_ret]; auto. }
    eapply hoare_bind with (R := pending d); [|apply pending_fetch_once|intros id].
    { apply hoare_lift. }
    eapply hoare_bind with (R := fetch_once); [|auto|intros response].
    { apply session_get_transcript_once. }
    destruct (status_code response =? 200)%nat; [|apply hoare_ret].
    apply hoare_seq; [apply hoare_in_world_once, quiet_write_file|intros _].
    apply hoare_seq; [apply hoare_in_world_once, quiet_convert_vtt_to_text|intros _].
    apply hoare_ret.
Qed.

Lemma count_processed_once : hoare fetch_once count_processed fetch_once.
Proof. apply hoare_update_frame. intros p w H. exact H. Qed.

Lemma process_item_once path item :
  hoare fetch_once (process_item E hostname course_name path item) fetch_once.
Proof.
  unfold process_item. destruct item; try apply hoare_ret.
  apply hoare_seq; [apply hoare_lift|intros lesson]. destruct lesson.
  - apply hoare_seq; [apply hoare_lift|intros id].
    apply hoare_seq; [apply hoare_in_world_once, quiet_driver_get|intros _].
    apply hoare_seq; [apply hoare_in_world_once, quiet_page_source|intros src].
    destruct (str_contains src no_content_marker).
    + apply hoare_seq; [|intros _; apply hoare_ret].
      apply hoare_update_frame. intros p w H. exact H.
    + apply hoare_seq; [apply hoare_lift|intros item'].
      apply hoare_seq; [|intros _].
      { apply hoare_update_frame. intros p w H. exact H. }
      apply hoare_seq; [apply hoare_catch, process_transcript_once|intros r].
      destruct r as [[f|]|e].
      * apply hoare_ret.
      * apply hoare_seq; [apply count_processed_once|intros _; apply hoare_ret].
      * apply hoare_get_pass_inv. intros st. destruct (filename st).
        -- apply hoare_seq; [apply count_processed_once|intros _; apply hoare_ret].
        -- apply hoare_raise.
  - apply hoare_seq; [apply hoare_lift|intros group].
    apply hoare_get_pass_inv. intros st.
    destruct (group && negb (found_future_lecture st)); [|apply hoare_ret].
    apply hoare_seq; [apply hoare_lift|intros groupInfo].
    apply hoare_seq; [apply hoare_lift|intros name].
    apply hoare_seq; [apply hoare_lift|intros name'].
    apply hoare_seq; [apply hoare_lift|intros lessons].
    apply hoare_seq; [|intros _; apply hoare_ret].
    apply hoare_update_frame. intros p w H. exact H.
Qed.

Lemma for_items_once path items :
  hoare fetch_once (for_items E hostname course_name path items) fetch_once.
Proof.
  induction items as [|item rest IH]; cbn [for_items]; [apply hoare_ret|].
  apply hoare_seq; [apply process_item_once|intros f].
  destruct f; [exact IH|apply hoare_ret].
Qed.

Lemma while_queue_once fuel :
  hoare fetch_once (while_queue E hostname course_name fuel) fetch_once.
Proof.
  induction fuel as [|fuel IH]; cbn [while_queue]; [apply hoare_raise|].
  apply hoare_get_pass_inv. intros st.
  destruct (queue st) as [|[items path] rest]; [apply hoare_ret|].
  destruct (found_future_lecture st); [apply hoare_ret|].
  apply hoare_seq; [|intros _].
  { apply hoare_update_frame. intros p w H. exact H. }
  apply hoare_seq; [apply hoare_lift|intros items'].
  apply hoare_seq; [apply for_items_once|intros _]. exact IH.
Qed.
End PassInvariant.

(** *** The budget of the pass *)

Lemma list_sum_cons (x : nat) (l : list nat) : list_sum (x :: l) = x + list_sum l.
Proof. reflexivity. Qed.

Lemma json_size_assoc (k : string) (d : list (string * json)) (v : json) :
  assoc k d = Some v -> S (json_size v) <= json_size (JDict d).
Proof.
  change (json_size (JDict d)) with (S (list_sum (map (fun kv => json_size (snd kv)) d))).
  induction d as [|[k' v'] d IH]; cbn [assoc]; [discriminate|].
  cbn [map snd]. rewrite list_sum_cons.
  destruct (String.eqb k k').
  - intros [= ->]. lia.
  - intros H. specialize (IH H). lia.
Qed.

Lemma dict_load_cons (item : json) (items : list json) :
  dict_load (item :: items)
  = match item with JDict _ => json_size item | _ => 0 end + dict_load items.
Proof. reflexivity. Qed.

Lemma dict_load_le (items : list json) :
  dict_load items <= list_sum (map json_size items).
Proof.
  induction items as [|item items IH]; [reflexivity|].
  rewrite dict_load_cons. cbn [map]. rewrite list_sum_cons.
  destruct item; lia.
Qed.

Lemma dict_load_strings {A} (f : A -> string) (l : list A) :
  dict_load (map (fun x => JStr (f x)) l) = 0.
Proof.
  induction l as [|x l IH]; [reflexivity|].
  cbn [map]. rewrite dict_load_cons. exact IH.
Qed.

Lemma dict_load_iterate (j : json) (items : list json) :
  iterate j = Ok items -> S (dict_load items) <= json_size j.
Proof.
  destruct j; cbn [iterate]; try discriminate; intros [= <-].
  - rewrite (dict_load_strings string_of_ascii). cbn [json_size]. lia.
  - pose proof (dict_load_le l). cbn [json_size]. lia.
  - rewrite (dict_load_strings fst). cbn [json_size]. lia.
Qed.

Lemma queue_cost_cons (items : json) (path : string) (q : list (json * string)) :
  queue_cost ((items, path) :: q) = S (json_size items) + queue_cost q.
Proof. reflexivity. Qed.

Lemma queue_cost_snoc (items : json) (path : string) (q : list (json * string)) :
  queue_cost (q ++ [(items, path)]) = queue_cost q + S (json_size items).
Proof.
  unfold queue_cost. rewrite map_app, list_sum_app. cbn [map fst].
  rewrite list_sum_cons. cbn [list_sum fold_right]. lia.
Qed.

Section PassBudget.
Variable E : env.
Variable hostname course_name : string.

Lemma hoare_lift_bind {S A B} (P Q : S -> Prop) (x : res A) (k : A -> ST S B) :
  (forall s, P s -> Q s) ->
  (forall a, x = Ok a -> hoare P (k a) Q) ->
  hoare P (bind (lift x) k) Q.
Proof.
  intros HPQ Hk s r s' Hrun HP. unfold bind, lift in Hrun.
  destruct x as [a|e].
  - eapply Hk; eauto.
  - injection Hrun as <- <-. auto.
Qed.

Lemma hoare_in_world_cost {A} n (c : M A) : hoare (cost_le n) (in_world c) (cost_le n).
Proof.
  intros [p w] r [p' w'] Hrun H. unfold in_world in Hrun. cbn in Hrun.
  destruct (c w) as [r1 w1]. injection Hrun as <- <- <-. exact H.
Qed.

Lemma process_transcript_cost n item :
  hoare (cost_le n) (process_transcript E hostname course_name item) (cost_le n).
Proof.
  unfold process_transcript.
  apply hoare_seq; [apply hoare_lift|intros media_id].
  destruct (is_None media_id); [apply hoare_ret|].
  apply hoare_seq; [apply hoare_lift|intros lecture_name].
  apply hoare_seq; [apply hoare_lift|intros lecture_date].
  apply hoare_seq; [apply hoare_lift|intros d].
  apply hoare_get_pass_inv. intros st.
  destruct (bool_decide (d ∈ _processed_lecture_dates st)).
  - apply hoare_seq; [|intros _; apply hoare_ret].
    apply hoare_update_frame. intros p w H. exact H.
  - apply hoare_seq; [apply hoare_update_frame; intros p w H; exact H|intros _].
    apply hoare_seq; [apply hoare_update_frame; intros p w H; exact H|intros _].
    apply hoare_seq; [apply hoare_in_world_cost|intros _].
    apply hoare_seq; [apply hoare_in_world_cost|intros _].
    apply hoare_seq; [apply hoare_in_world_cost|intros have].
    destruct have; cbn [negb]; [apply hoare_ret|].
    apply hoare_seq; [apply hoare_lift|intros id].
    apply hoare_seq; [|intros response].
    { unfold session_get_transcript.
      apply hoare_seq; [apply hoare_update_frame; intros p w H; exact H|intros _].
      apply hoare_in_world_cost. }
    destruct (status_code response =? 200)%nat; [|apply hoare_ret].
    apply hoare_seq; [apply hoare_in_world_cost|intros _].
    apply hoare_seq; [apply hoare_in_world_cost|intros _].
    apply hoare_ret.
Qed.

Lemma cost_le_mono n m s : n <= m -> cost_le n s -> cost_le m s.
Proof. unfold cost_le. lia. Qed.

(** One item adds to the queue at most what it weighs. *)
Lemma process_item_cost n path item :
  hoare (cost_le n) (process_item E hostname course_name path item)
    (cost_le (n + dict_load [item])).
Proof.
  assert (forall A (c : ST (pass * world) A) m,
            hoare (cost_le n) c (cost_le n) -> hoare (cost_le n) c (cost_le (n + m))) as Hw.
  { intros A c m Hc. eapply hoare_weaken; [| |exact Hc]; [auto|].
    intros s. apply cost_le_mono. lia. }
  unfold process_item. destruct item as [| | | | |d]; try (apply Hw, hoare_ret).
  eapply hoare_bind with (R := cost_le n); [apply hoare_lift| |intros lesson].
  { intros s. apply cost_le_mono. lia. }
  destruct lesson.
  - apply Hw.
    apply hoare_seq; [apply hoare_lift|intros id].
    apply hoare_seq; [apply hoare_in_world_cost|intros _].
    apply hoare_seq; [apply hoare_in_world_cost|intros src].
    destruct (str_contains src no_content_marker).
    + apply hoare_seq; [|intros _; apply hoare_ret].
      apply hoare_update_frame. intros p w H. exact H.
    + apply hoare_seq; [apply hoare_lift|intros item'].
      apply hoare_seq; [apply hoare_update_frame; intros p w H; exact H|intros _].
      apply hoare_seq; [apply hoare_catch, process_transcript_cost|intros r].
      destruct r as [[f|]|e].
      * apply hoare_ret.
      * apply hoare_seq; [|intros _; apply hoare_ret].
        apply hoare_update_frame. intros p w H. exact H.
      * apply hoare_get_pass_inv. intros st. destruct (filename st).
        -- apply hoare_seq; [|intros _; apply hoare_ret].
           apply hoare_update_frame. intros p w H. exact H.
        -- apply hoare_raise.
  - eapply hoare_bind with (R := cost_le n); [apply hoare_lift| |intros group].
    { intros s. apply cost_le_mono. lia. }
    apply hoare_get_pass. intros st.
    eapply hoare_weaken with (P' := cost_le n) (Q' := cost_le (n + dict_load [JDict d]));
      [by intros s [? _]|auto|].
    destruct (group && negb (found_future_lecture st)); [|apply Hw, hoare_ret].
    eapply hoare_bind with (R := cost_le n); [apply hoare_lift| |intros groupInfo].
    { intros s. apply cost_le_mono. lia. }
    eapply hoare_bind with (R := cost_le n); [apply hoare_lift| |intros name].
    { intros s. apply cost_le_mono. lia. }
    eapply hoare_bind with (R := cost_le n); [apply hoare_lift| |intros name'].
    { intros s. apply cost_le_mono. lia. }
    apply hoare_lift_bind; [intros s; apply cost_le_mono; lia|].
    intros lessons Hlessons.
    eapply hoare_bind with (R := cost_le (n + dict_load [JDict d]));
      [|auto|intros _; apply hoare_ret].
    apply hoare_modify. intros [p w]. unfold cost_le. cbn [fst set_queue queue].
    rewrite queue_cost_snoc, dict_load_cons.
    cbn [getitem] in Hlessons.
    destruct (assoc "lessons" d) as [v|] eqn:Hv; [|discriminate].
    injection Hlessons as ->. apply json_size_assoc in Hv.
    change (dict_load []) with 0. lia.
Qed.

Lemma for_items_cost n path items :
  hoare (cost_le n) (for_items E hostname course_name path items)
    (cost_le (n + dict_load items)).
Proof.
  revert n. induction items as [|item rest IH]; intros n; cbn [for_items].
  - eapply hoare_weaken with (P' := cost_le n) (Q' := cost_le n);
      [auto| |apply hoare_ret].
    intros s. apply cost_le_mono. lia.
  - assert (dict_load (item :: rest) = dict_load [item] + dict_load rest) as Hsplit.
    { rewrite !dict_load_cons. change (dict_load []) with 0.
      rewrite Nat.add_0_r. reflexivity. }
    eapply hoare_bind with (R := cost_le (n + dict_load [item]));
      [apply process_item_cost| |intros f].
    { intros s. apply cost_le_mono. lia. }
    destruct f.
    + eapply hoare_weaken with (P' := cost_le (n + dict_load [item]))
        (Q' := cost_le (n + dict_load [item] + dict_load rest)); [auto| |apply IH].
      intros s. apply cost_le_mono. lia.
    + eapply hoare_weaken with (P' := cost_le (n + dict_load [item]))
        (Q' := cost_le (n + dict_load [item])); [auto| |apply hoare_ret].
      intros s. apply cost_le_mono. lia.
Qed.

Lemma while_queue_S fuel (p : pass) (w : world) :
  while_queue E hostname course_name (S fuel) (p, w)
  = match queue p with
    | [] => (Ok tt, (p, w))
    | (items, path) :: rest =>
        if found_future_lecture p then (Ok tt, (p, w))
        else match iterate items with
             | Raise e => (Raise e, (set_queue rest p, w))
             | Ok l =>
                 match for_items E hostname course_name path l (set_queue rest p, w) with
                 | (Ok _, s1) => while_queue E hostname course_name fuel s1
                 | (Raise e, s1) => (Raise e, s1)
                 end
             end
    end.
Proof.
  cbn [while_queue]. unfold bind, get_pass, update, modify, lift, ret. cbn [fst snd].
  destruct (queue p) as [|[items path] rest]; [reflexivity|].
  destruct (found_future_lecture p); [reflexivity|].
  destruct (iterate items) as [l|e]; [|reflexivity].
  change (set_queue rest (p, w).1, (p, w).2) with (set_queue rest p, w).
  destruct (for_items E hostname course_name path l (set_queue rest p, w))
    as [[[]|e] s1]; reflexivity.
Qed.

(** The budget of queue entries is never the reason for stopping: once it
    exceeds the cost of the queue, any larger budget gives the same pass. *)
Lemma while_queue_enough_fuel fuel1 fuel2 (s : pass * world) :
  queue_cost (queue (fst s)) < fuel1 ->
  queue_cost (queue (fst s)) < fuel2 ->
  while_queue E hostname course_name fuel1 s = while_queue E hostname course_name fuel2 s.
Proof.
  revert fuel2 s. induction fuel1 as [|fuel1 IH]; intros fuel2 [p w] H1 H2; [lia|].
  destruct fuel2 as [|fuel2]; [lia|].
  rewrite !while_queue_S. cbn [fst snd] in *.
  destruct (queue p) as [|[items path] rest] eqn:Hq; [reflexivity|].
  destruct (found_future_lecture p); [reflexivity|].
  destruct (iterate items) as [l|e] eqn:Hit; [|reflexivity].
  destruct (for_items E hostname course_name path l (set_queue rest p, w))
    as [[[]|e] s1] eqn:Hfor; [|reflexivity].
  pose proof (for_items_cost (queue_cost rest) path l _ _ _ Hfor) as Hcost.
  unfold cost_le in Hcost. cbn [fst set_queue queue] in Hcost.
  specialize (Hcost (Nat.le_refl _)).
  apply dict_load_iterate in Hit.
  rewrite queue_cost_cons in H1, H2.
  apply IH; lia.
Qed.

Lemma get_videos_budget_suffices videos_json fuel (p : pass) (w : world) :
  pass_budget videos_json <= fuel ->
  while_queue E hostname course_name (pass_budget videos_json)
    (set_queue [(videos_json, "")] p, w)
  = while_queue E hostname course_name fuel (set_queue [(videos_json, "")] p, w).
Proof.
  intros Hfuel. unfold pass_budget in *.
  apply while_queue_enough_fuel; cbn [fst set_queue queue];
    rewrite queue_cost_cons; change (queue_cost []) with 0; lia.
Qed.
End PassBudget.

(** C9. Along the pass of [get_videos] over the course, for any number of
    queue entries, no date is fetched twice: the dates for which the
    transcript was requested are pairwise distinct, each of them is among the
    processed dates, and the session requests sent are exactly these. A
    lesson with a video media whose date is already among the processed
    dates is counted as processed and skipped: after the load of its
    classroom page that every lesson gets before its date is read, no request
    is sent, no file is written and no date is added. *)
Theorem one_transcript_per_date E hostname course_name :
  (forall fuel s r s',
     while_queue E hostname course_name fuel s = (r, s') ->
     fetch_once s -> fetch_once s')
  /\ (forall path fields st w id src media_id name d,
        let item := JDict fields in
        let item' := JDict (assoc_set "path_prefix" (JStr path) fields) in
        let video_url := hostname ++ "/lesson/" ++ format_value E id ++ "/classroom" in
        is_lesson item = Ok true ->
        lesson_id item = Ok id ->
        driver_get E (trace w) video_url = Ok tt ->
        page_source E (trace w ++ [DriverGet video_url]) = Ok src ->
        str_contains src no_content_marker = false ->
        video_media_id item' = Ok media_id ->
        is_None media_id = false ->
        lecture_name_of E item' = Ok name ->
        lecture_date_of item' = Ok (JStr d) ->
        d ∈ _processed_lecture_dates st ->
        process_item E hostname course_name path item (st, w)
        = (Ok Next,
           (set_processed_lectures (_processed_lectures st + 1)
              (set_processed_videos (processed_videos st ++ [item']) st),
            log (DriverGet video_url) w))).
Proof.
  split.
  - intros fuel s r s' Hrun Hs. by eapply while_queue_once.
  - intros path fields st w id src media_id name d item item' video_url
      Hlesson Hid Hnav Hsrc Hmark Hmedia Hsome Hname Hdate Hdup.
    subst item item' video_url.
    unfold process_item, process_transcript, bind, lift, in_world, driver_get_,
      page_source_, update, modify, catch, get_pass, ret.
    cbv beta iota. rewrite Hlesson. cbv beta iota. rewrite Hid. cbv beta iota.
    cbn [fst snd trace log]. rewrite Hnav. cbv beta iota.
    cbn [fst snd trace log]. rewrite Hsrc. cbv beta iota. rewrite Hmark.
    cbn [setitem fst snd]. rewrite Hmedia. cbv beta iota. rewrite Hsome.
    rewrite Hname. cbv beta iota. rewrite Hdate. cbn [hashable_str fst snd].
    rewrite bool_decide_true by exact Hdup. reflexivity.
Qed.

Lemma one_transcript_per_date_witness :
  let E := env_of (Ok "page") 200 "WEBVTT" MuxExecutableNotFound in
  let s0 := (set_queue [(JList [lesson_json; second_lesson_json; earlier_lesson_json], "")]
               (new_pass 3), empty_world) in
  let st := set_processed_lecture_dates {[ "2021-03-04" ]} (new_pass 3) in
  let fields := match second_lesson_json with JDict d => d | _ => [] end in
  let item' := JDict (assoc_set "path_prefix" (JStr "") fields) in
  fetch_once s0
  /\ fetch_once (snd (while_queue E "https://echo360.org" "Course" 10 s0))
  /\ "2021-03-04" ∈ _processed_lecture_dates st
  /\ process_item E "https://echo360.org" "Course" "" second_lesson_json (st, empty_world)
     = (Ok Next,
        (set_processed_lectures 1 (set_processed_videos [item'] st),
         World ∅ [DriverGet "https://echo360.org/lesson/L2/classroom"])).
Proof.
  intros E s0 st fields item'.
  assert (fetch_once s0) as H0.
  { split; [constructor|]. split; [|reflexivity]. intros d Hd. by apply elem_of_nil in Hd. }
  assert ("2021-03-04" ∈ _processed_lecture_dates st) as Hin.
  { vm_compute. reflexivity. }
  split; [exact H0|]. split; [|split; [exact Hin|]].
  - eapply (proj1 (one_transcript_per_date E "https://echo360.org" "Course") 10 s0);
      [apply surjective_pairing|exact H0].
  - apply (proj2 (one_transcript_per_date E "https://echo360.org" "Course")
             "" fields st empty_world (JStr "L2") "page" (JStr "M2") "Exercises"
             "2021-03-04"); reflexivity.
Defined.

(** A pass over three lessons, the second on the day of the first: two
    transcripts are requested, one for each day, and all three lessons are
    counted as processed. *)
Lemma pass_over_three_lessons :
  let E := env_of (Ok "page") 200 "WEBVTT" MuxExecutableNotFound in
  let s0 := (set_queue [(JList [lesson_json; second_lesson_json; earlier_lesson_json], "")]
               (new_pass 3), empty_world) in
  let '(r, (p, w)) := while_queue E "https://echo360.org" "Course" 10 s0 in
  r = Ok tt
  /\ fetched_dates p = ["2021-03-04"; "2021-03-02"]
  /\ _processed_lectures p = 3%Z
  /\ filter is_http_get (trace w)
     = [HttpGet "https://echo360.org/api/ui/echoplayer/lessons/L1/medias/M1/transcript-file?format=vtt";
        HttpGet "https://echo360.org/api/ui/echoplayer/lessons/L0/medias/M0/transcript-file?format=vtt"]
  /\ fs w !! "default_out_path/Course/clean/2021-03-04_Intro.txt" = Some (File "WEBVTT")
  /\ fs w !! "default_out_path/Course/clean/2021-03-04_Exercises.txt" = None.
Proof. vm_compute. repeat split. Qed.

(** ** Collections *)








(** * Further properties *)

Import Counting FileSpec Cases.

(** ** Shape of the addresses found in a page *)

Lemma match_tail_shape (suffix s m : string) :
  match_tail suffix s = Some m ->
  exists mid, m = mid ++ "." ++ suffix
    /\ Forall (fun c => url_char c = true) (list_ascii_of_string mid).
Proof.
  revert m. induction s as [|c s IH]; intros m; cbn [match_tail].
  - destruct (startswith "" ("." ++ suffix)); [|done].
    intros [= <-]. exists "". split; [done|constructor].
  - destruct (startswith (String c s) ("." ++ suffix)).
    + intros [= <-]. exists "". split; [done|constructor].
    + destruct (url_char c) eqn:Hc; [|done].
      destruct (match_tail suffix s) as [m'|]; [|done].
      intros [= <-]. destruct (IH _ eq_refl) as (mid & -> & Hmid).
      exists (String c mid). split; [done|]. by constructor.
Qed.

Lemma findall_from_shape (suffix : string) (skip : nat) (s u : string) :
  u ∈ findall_from suffix skip s ->
  exists mid, u = "https://" ++ mid ++ "." ++ suffix
    /\ Forall (fun c => url_char c = true) (list_ascii_of_string mid).
Proof.
  revert skip. induction s as [|c s IH]; intros skip; cbn [findall_from].
  - intros H. by apply elem_of_nil in H.
  - destruct skip as [|k]; [|apply IH].
    destruct (match_here suffix (String c s)) as [m|] eqn:Hm; [|apply IH].
    intros [-> | H]%elem_of_cons; [|by eapply IH].
    unfold match_here in Hm.
    destruct (startswith (String c s) "https://"); [|done].
    destruct (match_tail suffix _) as [m'|] eqn:Ht; [|done].
    injection Hm as <-.
    destruct (match_tail_shape _ _ _ Ht) as (mid & -> & Hmid).
    by exists mid.
Qed.

(** X1. Every address that the scan of the page source finds for a suffix
    starts with [https://], ends with a dot and the suffix, and has neither
    a comma nor a double quote in between. *)
Theorem found_urls_are_well_formed (suffix text u : string) :
  u ∈ findall suffix text ->
  exists mid, u = "https://" ++ mid ++ "." ++ suffix
    /\ Forall (fun c => c <> ","%char /\ c <> "034"%char) (list_ascii_of_string mid).
Proof.
  intros H. destruct (findall_from_shape _ _ _ _ H) as (mid & -> & Hmid).
  exists mid. split; [done|].
  eapply Forall_impl; [exact Hmid|]. intros c Hc. unfold url_char in Hc.
  apply andb_true_iff in Hc as [H1 H2].
  apply negb_true_iff in H1, H2. apply Ascii.eqb_neq in H1, H2. done.
Qed.

Lemma found_urls_are_well_formed_witness :
  exists mid, "https://h/a.hd1.mp4" = "https://" ++ mid ++ "." ++ "mp4"
    /\ Forall (fun c => c <> ","%char /\ c <> "034"%char) (list_ascii_of_string mid).
Proof.
  apply (found_urls_are_well_formed "mp4" three_urls_page "https://h/a.hd1.mp4").
  vm_compute. repeat (first [left | right; left | right]). 
Defined.

(** ** Page loads of the retry loops *)

Section RetryLoads.
Context {A : Type}.
Variable E : env.
Variable read : list event -> res A.
Variable body : M A.
Variable url : string.
Variable max_attempts : nat.
Hypothesis body_reads : forall w, body w = (read (trace w), w).

Lemma after_loads_0 (w : world) : after_loads url 0 w = w.
Proof. unfold after_loads. cbn [repeat]. rewrite app_nil_r. by destruct w. Qed.

Lemma after_loads_1 (w : world) : after_loads url 1 w = log (DriverGet url) w.
Proof. reflexivity. Qed.

Lemma retry_loop_loads (fuel stale refresh : nat) (w : world) r w' :
  retry_loop E body url max_attempts fuel stale refresh w = (r, w') ->
  exists k, w' = after_loads url k w
    /\ k <= (max_attempts - stale) + (max_attempts - refresh) + 1
    /\ (0 < fuel -> 0 < k).
Proof.
  revert stale refresh w. induction fuel as [|fuel IH]; intros stale refresh w.
  - cbn. intros [= <- <-]. exists 0. rewrite after_loads_0. repeat split; lia.
  - cbn [retry_loop]. unfold bind, driver_get_.
    destruct (driver_get E (trace w) url) as [[]|e].
    2:{ intros [= <- <-]. exists 1. rewrite after_loads_1. repeat split; lia. }
    rewrite body_reads.
    assert (forall r0, (r0, log (DriverGet url) w) = (r, w') ->
      exists k, w' = after_loads url k w
        /\ k <= (max_attempts - stale) + (max_attempts - refresh) + 1
        /\ (0 < S fuel -> 0 < k)) as Hstop.
    { intros r0 [= <- <-]. exists 1. rewrite after_loads_1. repeat split; lia. }
    destruct (read (trace (log (DriverGet url) w))) as [v|e]; [apply Hstop|].
    destruct e; try apply Hstop.
    + destruct (max_attempts <=? refresh)%nat eqn:Hle; [apply Hstop|].
      apply Nat.leb_gt in Hle. intros H.
      destruct (IH _ _ _ H) as (k & -> & Hk & _).
      exists (S k). rewrite after_loads_S. repeat split; lia.
    + destruct (max_attempts <=? stale)%nat eqn:Hle; [apply Hstop|].
      apply Nat.leb_gt in Hle. intros H.
      destruct (IH _ _ _ H) as (k & -> & Hk & _).
      exists (S k). rewrite after_loads_S. repeat split; lia.
Qed.
End RetryLoads.

(** X2. Both page-fetch loops stop after a bounded number of loads:
    whatever the browser does, the legacy loop and [brute_force_get_url]
    load the page at least once and at most [2 * (max_attempts - 1) + 1]
    times, and do nothing else to the world. The bound is below
    [retry_budget], so the budget of the model never ends a loop. *)
Theorem page_loads_are_bounded E (url : string) (waitsecond max_attempts : nat)
    (suffix : string) (w : world) :
  (exists k, 1 <= k <= 2 * (max_attempts - 1) + 1
     /\ snd (EchoVideo_loop_find_m3u8_url E url waitsecond max_attempts w)
        = after_loads url k w)
  /\ (exists k, 1 <= k <= 2 * (max_attempts - 1) + 1
       /\ snd (brute_force_get_url E url max_attempts suffix w)
          = after_loads url k w).
Proof.
  split.
  - destruct (EchoVideo_loop_find_m3u8_url E url waitsecond max_attempts w)
      as [r w'] eqn:H.
    apply (retry_loop_loads E (fun t => content_player_src E t waitsecond)) in H;
      [|reflexivity].
    destruct H as (k & -> & Hk & Hpos). exists k.
    unfold retry_budget in Hpos. split; [lia|done].
  - destruct (brute_force_get_url E url max_attempts suffix w) as [r w'] eqn:H.
    apply (retry_loop_loads E (scan_page E suffix)) in H;
      [|intros w0; apply brute_force_body_reads].
    destruct H as (k & -> & Hk & Hpos). exists k.
    unfold retry_budget in Hpos. split; [lia|done].
Qed.

(** ** The manifests found in the page *)

Lemma filterM_strings (p : string) (l : list string) :
  filterM (fun url => str_endswith url p) (JStr <$> l)
  = Ok (JStr <$> filter (fun u => endswith u p = true) l).
Proof.
  induction l as [|u l IH]; [done|].
  cbn [fmap list_fmap filterM str_endswith rbind] in *.
  change (list_fmap string json JStr l) with (JStr <$> l). rewrite IH.
  cbn [rbind]. rewrite filter_cons.
  destruct (endswith u p); by rewrite decide_bool_decide.
Qed.

Lemma rev_fmap {A B} (f : A -> B) (l : list A) : List.rev (f <$> l) = f <$> List.rev l.
Proof.
  induction l as [|x l IH]; [done|].
  cbn [fmap list_fmap List.rev]. change (list_fmap A B f l) with (f <$> l).
  rewrite IH, fmap_app. done.
Qed.

Lemma select_av_page_cases (s : gset string) :
  (select_av (FromPage s) = Ok (JBool false)
   /\ forall u, u ∈ s -> endswith u "av.m3u8" = false)
  \/ exists l : list string,
       select_av (FromPage s) = Ok (JList (JStr <$> l))
       /\ 1 <= length l <= 2
       /\ NoDup l
       /\ forall u, u ∈ l -> u ∈ s /\ endswith u "av.m3u8" = true.
Proof.
  unfold select_av. cbn [rbind]. rewrite filterM_strings. cbn [rbind].
  rewrite length_fmap.
  set (l' := filter (fun u => endswith u "av.m3u8" = true) (elements s)).
  destruct l' as [|x l''] eqn:Hl'.
  - left. split; [done|]. intros u Hu.
    destruct (endswith u "av.m3u8") eqn:He; [|done].
    assert (u ∈ l') as Hin by (apply list_elem_of_filter; split; [done|by apply elem_of_elements]).
    subst l'. rewrite Hl' in Hin. by apply elem_of_nil in Hin.
  - right. exists (take 2 (List.rev l')). rewrite <- Hl'.
    assert (length l' <> 0) as Hlen by (rewrite Hl'; done).
    destruct (length l' =? 0)%nat eqn:H0; [by apply Nat.eqb_eq in H0|].
    split; [by rewrite rev_fmap, fmap_take|].
    assert (NoDup l') as Hnd by (apply NoDup_filter, NoDup_elements).
    split; [|split].
    + rewrite length_take, length_rev. lia.
    + eapply sublist_NoDup; [|apply sublist_take].
      apply NoDup_ListNoDup, List.NoDup_rev, NoDup_ListNoDup, Hnd.
    + intros u Hu. apply (subseteq_take 2) in Hu.
      apply list_elem_of_In, List.in_rev, list_elem_of_In in Hu.
      apply list_elem_of_filter in Hu as [He Hu].
      split; [by apply elem_of_elements|done].
Qed.

(** X3. What the tail of [_loop_find_m3u8_url] makes of the manifests
    found in the page: [False] when none of them ends in [av.m3u8];
    otherwise a list of one or two distinct addresses, each of them found in
    the page and ending in [av.m3u8]. *)
Theorem page_manifests_are_combined_streams (s : gset string) :
  (select_av (FromPage s) = Ok (JBool false)
   /\ forall u, u ∈ s -> endswith u "av.m3u8" = false)
  \/ exists l : list string,
       select_av (FromPage s) = Ok (JList (JStr <$> l))
       /\ 1 <= length l <= 2
       /\ NoDup l
       /\ forall u, u ∈ l -> u ∈ s /\ endswith u "av.m3u8" = true.
Proof. apply select_av_page_cases. Qed.

(** X4. A lecture for which nothing can be resolved. When the metadata
    lists no direct file and the page shows neither a direct file nor a
    combined manifest, resolution does not raise: it returns [False].
    Downloading that value with subtitles off and no final file present
    raises [AttributeError], from [single_url.endswith], before any request
    and without touching a file. *)
Theorem unresolved_lecture_is_false E hostname video_json video_url max_attempts
    (w w1 w2 : world) (e : exn) (s1 s2 : gset string) :
  from_json_mp4 video_json = Raise e ->
  is_Exception e = true ->
  (forall e', from_json_m3u8 E hostname video_json = Raise e' -> is_Exception e' = true) ->
  brute_force_get_url E video_url max_attempts "mp4" w = (Ok s1, w1) ->
  size s1 = 0 ->
  brute_force_get_url E video_url max_attempts "m3u8" w1 = (Ok s2, w2) ->
  (forall u, u ∈ s2 -> endswith u "av.m3u8" = false) ->
  EchoCloudVideo_loop_find_m3u8_url E hostname video_json video_url max_attempts w
  = (Ok (JBool false), w2)
  /\ forall (self : EchoCloudVideo) (output_dir filename : string) (w3 : world),
       download_subtitles self = false ->
       fs w3 !! path_join output_dir (strip_illegal_path E filename ++ ".mp4") = None ->
       download_single E self (JBool false) output_dir filename w3
       = (Raise AttributeError, w3).
Proof.
  intros Hmp4 He Hm Hs1 Hsize Hs2 Hnone. split.
  - rewrite (embedded_manifest_value_unused E hostname video_json video_url
               max_attempts w e Hmp4 He Hm).
    unfold brute_force_get_mp4_url, bind. rewrite Hs1, Hsize.
    cbn [Nat.eqb raise is_Exception]. rewrite Hs2. f_equal.
    destruct (select_av_page_cases s2) as [[H _]|(l & _ & Hl & _ & Hin)];
      [done|].
    destruct l as [|u l]; [cbn in Hl; lia|].
    destruct (Hin u) as [Hu Hav]; [left|]. rewrite (Hnone u Hu) in Hav. done.
  - intros self output_dir filename w3 Hsub Hno.
    unfold download_single, bind, ret, exists_, lift. rewrite Hsub. cbn [is_None].
    rewrite Hno. rewrite bool_decide_false by (intros [? ?]; done). reflexivity.
Qed.

Lemma unresolved_lecture_is_false_witness :
  let E := env_of (Ok "<html>no stream</html>") 200 "" MuxExecutableNotFound in
  let url := "https://echo360.org/lesson/L1/classroom" in
  EchoCloudVideo_loop_find_m3u8_url E "https://echo360.org" manifest_only_json url 5
    empty_world
  = (Ok (JBool false), after_loads url 2 empty_world)
  /\ forall (self : EchoCloudVideo) (output_dir filename : string) (w3 : world),
       download_subtitles self = false ->
       fs w3 !! path_join output_dir (strip_illegal_path E filename ++ ".mp4") = None ->
       download_single E self (JBool false) output_dir filename w3
       = (Raise AttributeError, w3).
Proof.
  intros E url.
  apply (unresolved_lecture_is_false E "https://echo360.org" manifest_only_json url 5
           empty_world (after_loads url 1 empty_world) (after_loads url 2 empty_world)
           ValueError ∅ ∅).
  - reflexivity.
  - reflexivity.
  - intros e' H. vm_compute in H. discriminate.
  - vm_compute. reflexivity.
  - reflexivity.
  - vm_compute. reflexivity.
  - intros u Hu. by apply not_elem_of_empty in Hu.
Defined.

(** ** Page loads of a constructor *)

Lemma after_loads_add (url : string) (a b : nat) (w : world) :
  after_loads url a (after_loads url b w) = after_loads url (b + a) w.
Proof.
  unfold after_loads. cbn [fs trace]. f_equal.
  by rewrite <- app_assoc, repeat_app.
Qed.

Lemma brute_force_get_url_loads E url max_attempts suffix (w w' : world) r :
  brute_force_get_url E url max_attempts suffix w = (r, w') ->
  exists k, k <= 2 * (max_attempts - 1) + 1 /\ w' = after_loads url k w.
Proof.
  intros H. apply (retry_loop_loads E (scan_page E suffix)) in H;
    [|intros w0; apply brute_force_body_reads].
  destruct H as (k & -> & Hk & _). exists k. split; [lia|done].
Qed.

Lemma page_scans_loads E url max_attempts (w w' : world) (r : res json) :
  (let* r0 := catch (brute_force_get_mp4_url E url max_attempts) in
   match r0 with
   | Ok urls => ret (JList (JStr <$> urls))
   | Raise _ =>
       let* found := brute_force_get_url E url max_attempts "m3u8" in
       lift (select_av (FromPage found))
   end) w = (r, w') ->
  exists k, k <= 2 * (2 * (max_attempts - 1) + 1) /\ w' = after_loads url k w.
Proof.
  unfold bind at 1. unfold catch at 1. unfold brute_force_get_mp4_url at 1.
  unfold bind at 1.
  destruct (brute_force_get_url E url max_attempts "mp4" w) as [r1 w1] eqn:H1.
  apply brute_force_get_url_loads in H1 as (k1 & Hk1 & ->).
  assert (forall x : res json, (x, after_loads url k1 w) = (r, w') ->
    exists k, k <= 2 * (2 * (max_attempts - 1) + 1) /\ w' = after_loads url k w) as Hstop.
  { intros x [= <- <-]. exists k1. split; [lia|done]. }
  assert ((let* found := brute_force_get_url E url max_attempts "m3u8" in
           lift (select_av (FromPage found))) (after_loads url k1 w) = (r, w') ->
          exists k, k <= 2 * (2 * (max_attempts - 1) + 1) /\ w' = after_loads url k w)
    as Hsecond.
  { unfold bind, lift.
    destruct (brute_force_get_url E url max_attempts "m3u8" (after_loads url k1 w))
      as [r2 w2] eqn:H2.
    apply brute_force_get_url_loads in H2 as (k2 & Hk2 & ->).
    rewrite after_loads_add.
    destruct r2; intros [= <- <-]; exists (k1 + k2); (split; [lia|done]). }
  destruct r1 as [urls|e1].
  - destruct (size urls =? 0)%nat; unfold raise, ret; cbn [is_Exception].
    + apply Hsecond.
    + apply Hstop.
  - destruct (is_Exception e1); [apply Hsecond|apply Hstop].
Qed.

Lemma loop_find_loads E hostname video_json url max_attempts (w w' : world) r :
  EchoCloudVideo_loop_find_m3u8_url E hostname video_json url max_attempts w = (r, w') ->
  exists k, k <= 2 * (2 * (max_attempts - 1) + 1) /\ w' = after_loads url k w.
Proof.
  unfold EchoCloudVideo_loop_find_m3u8_url.
  assert (forall x : res json, (x, w) = (r, w') ->
    exists k, k <= 2 * (2 * (max_attempts - 1) + 1) /\ w' = after_loads url k w) as H0.
  { intros x [= <- <-]. exists 0. split; [lia|]. unfold after_loads. cbn.
    rewrite app_nil_r. by destruct w. }
  unfold bind at 1. unfold catch at 1. unfold lift at 1.
  destruct (from_json_mp4 video_json) as [u|e]; [apply H0|].
  destruct (is_Exception e); [|apply H0].
  unfold bind at 1. unfold catch at 1. unfold lift at 1.
  destruct (from_json_m3u8 E hostname video_json) as [v|e'].
  - apply page_scans_loads.
  - destruct (is_Exception e'); [apply page_scans_loads|apply H0].
Qed.

(** X5. Building a lecture object only loads pages: the constructor
    leaves the file system alone, sends no request, and loads one and the
    same page at most 19 times (one load, then at most nine in each of the
    two page scans of the resolution); at most once when only subtitles are
    asked for, since resolution is skipped then. *)
Theorem building_a_lecture_loads_pages_only E (video_json : json) (hostname : string)
    (alternative_feeds subtitles : bool) (course_name : option string)
    (w w' : world) (r : res EchoCloudVideo) :
  EchoCloudVideo_init E video_json hostname alternative_feeds subtitles course_name w
  = (r, w') ->
  exists url k,
    k <= (if subtitles then 1 else 19)
    /\ w' = after_loads url k w.
Proof.
  unfold EchoCloudVideo_init.
  assert (forall (x : res EchoCloudVideo) (url : string), (x, w) = (r, w') ->
    exists url k, k <= (if subtitles then 1 else 19) /\ w' = after_loads url k w) as H0.
  { intros x url [= <- <-]. exists url, 0. split; [destruct subtitles; lia|].
    unfold after_loads. cbn. rewrite app_nil_r. by destruct w. }
  unfold bind at 1. unfold lift at 1.
  destruct (getitem video_json "path_prefix") as [pp|e]; [|apply (H0 _ "")].
  unfold bind at 1. unfold lift at 1.
  destruct (contains video_json "lessons") as [[|]|e]; [| |apply (H0 _ "")].
  - unfold bind, lift, raise, ret.
    destruct (getitem video_json "lessons") as [ls|e]; [|apply (H0 _ "")].
    destruct (iterate ls) as [[|part parts]|e]; [| |apply (H0 _ "")].
    + destruct (get_date E _ video_json); apply (H0 _ "").
    + destruct (getitem video_json "groupInfo") as [g|e]; [|apply (H0 _ "")].
      destruct (getitem g "name"); apply (H0 _ "").
  - unfold bind at 1. unfold lift at 1.
    destruct (getitem video_json "lesson") as [l1|e]; [|apply (H0 _ "")].
    unfold bind at 1. unfold lift at 1.
    destruct (getitem l1 "lesson") as [l2|e]; [|apply (H0 _ "")].
    unfold bind at 1. unfold lift at 1.
    destruct (getitem l2 "id") as [id|e]; [|apply (H0 _ "")].
    set (url := video_url_of hostname (format_value E id)).
    assert (forall (x : res EchoCloudVideo) k, k <= (if subtitles then 1 else 19) ->
      (x, after_loads url k w) = (r, w') ->
      exists url k, k <= (if subtitles then 1 else 19) /\ w' = after_loads url k w) as H1.
    { intros x k Hk [= <- <-]. by exists url, k. }
    unfold bind at 1. unfold driver_get_ at 1.
    change (log (DriverGet url) w) with (after_loads url 1 w).
    assert (1 <= if subtitles then 1 else 19) as Hone by (destruct subtitles; lia).
    destruct (driver_get E (trace w) url) as [[]|e]; [|by apply H1].
    unfold bind at 1. unfold bind at 1. unfold page_source_ at 1.
    destruct (page_source E (trace (after_loads url 1 w))) as [src|e]; [|by apply H1].
    unfold ret at 1.
    destruct subtitles; cbn [negb].
    + unfold bind, ret, lift.
      repeat match goal with
             | |- context [match ?x with Ok _ => _ | Raise _ => _ end] => destruct x
             end; by apply H1.
    + unfold bind at 1. unfold bind at 1.
      destruct (EchoCloudVideo_loop_find_m3u8_url E hostname video_json url 5
                  (after_loads url 1 w)) as [r2 w2] eqn:H2.
      apply loop_find_loads in H2 as (k2 & Hk2 & ->). rewrite after_loads_add.
      destruct r2 as [m|e]; [|apply H1; lia].
      unfold bind, ret, lift.
      repeat match goal with
             | |- context [match ?x with Ok _ => _ | Raise _ => _ end] => destruct x
             end; apply H1; lia.
Qed.

Lemma building_a_lecture_loads_pages_only_witness :
  let E := env_of (Ok "<html>no stream</html>") 200 "" MuxExecutableNotFound in
  exists v url k,
    EchoCloudVideo_init E manifest_only_json "https://echo360.org" false false
      (Some "Course") empty_world = (Ok v, after_loads url k empty_world)
    /\ _url v = Some (JBool false)
    /\ k <= 19.
Proof.
  intros E.
  destruct (EchoCloudVideo_init E manifest_only_json "https://echo360.org" false false
              (Some "Course") empty_world) as [r w'] eqn:Hrun.
  destruct (building_a_lecture_loads_pages_only E _ _ _ _ _ _ _ _ Hrun)
    as (url & k & Hk & ->).
  vm_compute in Hrun.
  destruct r as [v|e]; [|discriminate].
  exists v, url, k. split; [reflexivity|]. split; [|exact Hk].
  injection Hrun as <- _. reflexivity.
Defined.

(** ** Lectures that cannot be built *)




(** ** The legacy video *)

(** X7. The date of a legacy video is the fallback whenever [startTime]
    is not a dict: [get_date] is handed the value of [startTime], and
    [_extract_date] indexes that value with [startTime] again, which raises
    [TypeError] on a string, so the date parser is never reached. *)
Theorem legacy_date_is_the_fallback E (video_json startTime : json)
    (w w' : world) (v : EchoVideo) :
  getitem video_json "startTime" = Ok startTime ->
  (forall d, startTime <> JDict d) ->
  EchoVideo_init E video_json w = (Ok v, w') ->
  legacy_date v = "1970-01-01".
Proof.
  intros Hst Hnd. unfold EchoVideo_init, bind, lift, ret.
  rewrite Hst.
  assert (get_date E EchoVideo_extract_date startTime = Ok "1970-01-01") as ->.
  { unfold get_date, EchoVideo_extract_date.
    destruct startTime as [| | | | |d]; try reflexivity. by destruct (Hnd d). }
  destruct (getitem video_json "richMedia") as [rm|e]; [|by destruct e].
  destruct (driver_get_ E _ w) as [[?|e] w1]; [|by destruct e].
  destruct (page_source_ E w1) as [[?|e] w2]; [|by destruct e].
  destruct (EchoVideo_loop_find_m3u8_url E _ 30 5 w2) as [[?|e] w3]; [|by destruct e].
  destruct (getitem video_json "title") as [t|e]; [|by destruct e].
  by intros [= <- <-].
Qed.

Lemma legacy_date_is_the_fallback_witness :
  let E := with_player "https://old/s.m3u8" (env_of (Ok "") 200 "" MuxExecutableNotFound) in
  exists v w',
    EchoVideo_init E legacy_string_date_json empty_world = (Ok v, w')
    /\ legacy_date v = "1970-01-01".
Proof.
  intros E. eexists _, _. split; [vm_compute; reflexivity|].
  eapply (legacy_date_is_the_fallback E legacy_string_date_json
            (JStr "2019-04-25T09:00:00") empty_world).
  - reflexivity.
  - intros d. discriminate.
  - vm_compute. reflexivity.
Defined.

(** X8. A [KeyError] never leaves [EchoVideo.__init__]: its handler
    calls [_blow_up], whose parameter [str] shadows the builtin, so
    [TypeError] is raised in place of the intended exit. With [richMedia]
    missing nothing is loaded, and the legacy collection fails with that
    [TypeError]. *)
Theorem legacy_key_error_becomes_type_error E (video_json : json) (w : world) :
  fst (EchoVideo_init E video_json w) <> Raise KeyError
  /\ (getitem video_json "richMedia" = Raise KeyError ->
      EchoVideo_init E video_json w = (Raise TypeError, w)
      /\ forall rest,
           EchoVideos_init E (JList (video_json :: rest)) w = (Raise TypeError, w)).
Proof.
  split.
  - unfold EchoVideo_init.
    match goal with |- context [match ?b w with _ => _ end] =>
      destruct (b w) as [[v|e] w1] end; [done|].
    by destruct e.
  - intros Hk.
    assert (EchoVideo_init E video_json w = (Raise TypeError, w)) as Hinit.
    { unfold EchoVideo_init, bind, lift. rewrite Hk. reflexivity. }
    split; [exact Hinit|]. intros rest.
    unfold EchoVideos_init. cbn [is_None iterate]. unfold bind at 1. unfold lift at 1.
    cbn [build_videos]. unfold bind. rewrite Hinit. reflexivity.
Qed.

Lemma legacy_key_error_becomes_type_error_witness :
  let E := env_of (Ok "") 200 "" MuxExecutableNotFound in
  EchoVideo_init E (JDict [("title", JStr "First")]) empty_world
  = (Raise TypeError, empty_world)
  /\ forall rest,
       EchoVideos_init E (JList (JDict [("title", JStr "First")] :: rest)) empty_world
       = (Raise TypeError, empty_world).
Proof.
  intros E.
  apply (proj2 (legacy_key_error_becomes_type_error E (JDict [("title", JStr "First")])
                  empty_world)).
  reflexivity.
Defined.

(** ** Files that a download leaves alone *)

Lemma fs_kept_refl (w : world) : fs_kept w w.
Proof. by intros p _. Qed.

Lemma fs_kept_trans (w1 w2 w3 : world) :
  fs_kept w1 w2 -> fs_kept w2 w3 -> fs_kept w1 w3.
Proof.
  intros H12 H23 p Hp. rewrite <- (H12 p Hp). apply H23. by rewrite (H12 p Hp).
Qed.

Lemma fs_kept_log (ev : event) (w : world) : fs_kept w (log ev w).
Proof. by intros p _. Qed.

Lemma fs_kept_new (p : string) (n : node) (w : world) :
  fs w !! p = None -> fs_kept w (set_fs (<[p := n]> (fs w)) w).
Proof.
  intros Hp q [x Hq]. cbn. apply lookup_insert_ne. intros ->. congruence.
Qed.

Lemma keeps_ret {A} (a : A) : keeps_files (ret a).
Proof. intros w r w' [= <- <-]. apply fs_kept_refl. Qed.

Lemma keeps_raise {A} (e : exn) : keeps_files (raise e : M A).
Proof. intros w r w' [= <- <-]. apply fs_kept_refl. Qed.

Lemma keeps_lift {A} (x : res A) : keeps_files (lift x).
Proof. intros w r w' [= <- <-]. apply fs_kept_refl. Qed.

Lemma keeps_bind {A B} (c : M A) (k : A -> M B) :
  keeps_files c -> (forall a, keeps_files (k a)) -> keeps_files (bind c k).
Proof.
  intros Hc Hk w r w'. unfold bind.
  destruct (c w) as [[a|e] w1] eqn:Hcw.
  - intros H. eapply fs_kept_trans; [by eapply Hc|by eapply Hk].
  - intros [= <- <-]. by eapply Hc.
Qed.

Lemma keeps_bind_ok {A B} (a : A) (k : A -> M B) :
  keeps_files (k a) -> keeps_files (bind (lift (Ok a)) k).
Proof. intros H. exact H. Qed.

Lemma keeps_ensure_dir (p : string) : keeps_files (ensure_dir p).
Proof.
  intros w r w'. unfold ensure_dir.
  destruct (fs w !! p) eqn:Hp; intros [= <- <-];
    [apply fs_kept_refl|by apply fs_kept_new].
Qed.

Lemma keeps_http_get E (url : string) : keeps_files (http_get_ E url).
Proof. intros w r w' [= <- <-]. apply fs_kept_log. Qed.

(** A write guarded by [os.path.exists], with requests in between. *)
Lemma keeps_guarded_write {A} (p : string) (fetch : M A) (k : A -> M unit) :
  keeps_files fetch ->
  (forall w r w', fetch w = (r, w') -> fs w' = fs w) ->
  (forall x, (exists c, k x = write_file p c) \/ k x = ret tt) ->
  keeps_files
    (let* have := exists_ p in
     if have : bool then ret tt else let* x := fetch in k x).
Proof.
  intros Hk Hfs Hw w r w'. unfold bind at 1. unfold exists_.
  destruct (fs w !! p) as [n|] eqn:Hp.
  - rewrite bool_decide_true by done. intros [= <- <-]. apply fs_kept_refl.
  - rewrite bool_decide_false by (intros [? ?]; done).
    unfold bind. destruct (fetch w) as [[x|e] w1] eqn:Hf.
    2:{ intros [= <- <-]. by eapply Hk. }
    pose proof (Hfs _ _ _ Hf) as Heq.
    destruct (Hw x) as [[c ->] | ->]; [|intros [= <- <-]; by eapply Hk].
    unfold write_file. rewrite Heq, Hp. intros [= <- <-].
    eapply fs_kept_trans; [by eapply Hk|]. rewrite <- Heq. apply fs_kept_new.
    by rewrite Heq.
Qed.

Section KeepFiles.
Variable E : env.
Variable self : EchoCloudVideo.

Lemma keeps_download_medias (dirty_dir : string) (medias : list json) :
  keeps_files (download_medias E self dirty_dir medias).
Proof.
  induction medias as [|media rest IH]; [apply keeps_ret|].
  cbn [download_medias].
  apply keeps_bind; [apply keeps_lift|]. intros mediaType.
  apply keeps_bind; [|intros _; exact IH].
  destruct (negb (eq_str mediaType "Video")); [|apply keeps_ret].
  apply keeps_bind; [apply keeps_lift|]. intros title.
  apply keeps_bind; [apply keeps_lift|]. intros media_filename.
  apply keeps_bind; [apply keeps_lift|]. intros id.
  apply keeps_guarded_write.
  - apply keeps_http_get.
  - by intros w r w' [= <- <-].
  - intros response. destruct (status_code response =? 200)%nat; eauto.
Qed.

Lemma keeps_download_file (single_url : json) (output_dir filename : string) :
  download_subtitles self = false ->
  str_endswith single_url ".m3u8" <> Ok true ->
  keeps_files (download_single E self single_url output_dir filename).
Proof.
  intros Hsub Hurl. unfold download_single. rewrite Hsub.
  apply keeps_bind; [apply keeps_ret|]. intros [b|]; [apply keeps_ret|].
  destruct (is_None single_url); [apply keeps_ret|].
  destruct (str_endswith single_url ".m3u8") as [[|]|e] eqn:Hm; [done| |].
  - destruct single_url; try discriminate. cbn [lift as_str]. unfold download_file.
    remember (path_join output_dir (strip_illegal_path E filename ++ ".mp4")) as p eqn:Hpdef.
    intros w r w'. unfold bind at 1. unfold exists_.
    destruct (fs w !! p) as [n|] eqn:Hp.
    + rewrite bool_decide_true by done. intros [= <- <-]. apply fs_kept_refl.
    + rewrite bool_decide_false by (intros [? ?]; done).
      unfold bind, lift, download_file, bind, http_get_, write_file.
      destruct (http_get E (trace w) s).
      * cbn [fs log]. rewrite Hp. intros [= <- <-]. eapply fs_kept_trans; [apply (fs_kept_log (HttpGet s))|].
        by apply (fs_kept_new p _ (log (HttpGet s) w)).

      * intros [= <- <-]. apply fs_kept_log.
  - apply keeps_bind; [intros w r w' [= <- <-]; apply fs_kept_refl|].
    intros done0. destruct done0; [apply keeps_ret|].
    apply keeps_bind; [apply keeps_lift|]. intros ?.
    intros w r w'. unfold bind, lift.
    destruct single_url; try discriminate Hm; cbn; intros [= <- <-]; apply fs_kept_refl.
Qed.

Lemma keeps_download_feeds (dirty_dir filename : string) (urls : list json) :
  download_subtitles self = false ->
  Forall (fun u => str_endswith u ".m3u8" <> Ok true) urls ->
  forall counter final_result,
    keeps_files (download_feeds E self dirty_dir filename counter urls final_result).
Proof.
  intros Hsub. induction 1 as [|u urls Hu Hurls IH]; intros counter final_result.
  - apply keeps_ret.
  - cbn [download_feeds]. apply keeps_bind; [by apply keeps_download_file|].
    intros result. apply IH.
Qed.
End KeepFiles.

(** X9. With subtitles off and every candidate a direct file (no address
    ending in [.m3u8]), [download] never changes or removes what is already
    on disk: each path present before holds the same file or directory
    afterwards, whatever the servers answer and whether or not the download
    fails. *)
Theorem direct_download_keeps_existing_files E (self : EchoCloudVideo) (url : json)
    (output_dir filename : string) (w w' : world) (r : res bool) :
  download_subtitles self = false ->
  _url self = Some url ->
  Forall (fun u => str_endswith u ".m3u8" <> Ok true) (candidates url) ->
  download E self output_dir filename w = (r, w') ->
  forall p, is_Some (fs w !! p) -> fs w' !! p = fs w !! p.
Proof.
  intros Hsub Hurl Hdirect. revert w r w'.
  change (keeps_files (download E self output_dir filename)).
  unfold download. rewrite Hsub, Hurl. cbn [negb attr].
  apply keeps_bind.
  { unfold prepare_dirs.
    repeat (apply keeps_bind; [apply keeps_ensure_dir|intros _]). apply keeps_ret. }
  intros dirty_dir. apply keeps_bind_ok.
  apply keeps_bind.
  { unfold download_attached_media.
    repeat (apply keeps_bind; [apply keeps_lift|intros ?]).
    apply keeps_download_medias. }
  intros _. apply keeps_download_feeds; [done|].
  pose proof (proj1 (Forall_forall _ _) Hdirect) as Hall.
  apply Forall_forall. intros x Hx. apply Hall. revert Hx.
  destruct (negb (download_alternative_feeds self)); [apply (subseteq_take 1)|done].
Qed.

Lemma direct_download_keeps_existing_files_witness :
  let E := env_of (Ok "") 200 "fresh" MuxExecutableNotFound in
  let w' := snd (download E (intro_video true false) "" "Intro" world_with_first_feed) in
  fs w' !! "Course/dirty/Intro1.mp4" = Some (File "old")
  /\ fs w' !! "Course/dirty/Intro2.mp4" = Some (File "fresh").
Proof.
  intros E w'. split; [|vm_compute; reflexivity].
  apply (direct_download_keeps_existing_files E (intro_video true false)
           (JList [JStr "https://h/a.hd1.mp4"; JStr "https://h/a.hd2.mp4"])
           "" "Intro" world_with_first_feed w'
           (fst (download E (intro_video true false) "" "Intro" world_with_first_feed))
           eq_refl eq_refl).
  - repeat constructor; vm_compute; discriminate.
  - apply surjective_pairing.
  - vm_compute. eauto.
Defined.

(** ** Subtitles *)

Lemma bind_pure {A B} (a : A) (k : A -> M B) (w : world) :
  bind (fun w0 => (Ok a, w0)) k w = k a w.
Proof. reflexivity. Qed.

Section Subtitles.
Variable E : env.
Variable self : EchoCloudVideo.

Lemma download_subtitle_again (output_dir filename : string) (w w1 : world)
    (r : option bool) :
  download_subtitle E self output_dir filename w = (Ok r, w1) ->
  r <> Some false ->
  download_subtitle E self output_dir filename w1 = (Ok None, w1).
Proof.
  unfold download_subtitle.
  destruct (let? lesson := getitem (video_json self) "lesson" in _) as [media_id|e].
  2:{ destruct e; intros [= <- <-]; done. }
  rewrite !bind_pure. cbv beta iota.
  destruct (is_None media_id); [intros [= <- <-]; done|].
  set (dirty_path := path_join output_dir (filename ++ ".vtt")).
  set (clean_dir := path_join (dirname output_dir) "clean").
  match goal with |- context [bind (ensure_dir clean_dir) ?k] => set (K := k tt) end.
  assert (forall w0 : world, is_Some (fs w0 !! clean_dir) -> is_Some (fs w0 !! dirty_path) ->
    bind (ensure_dir clean_dir) (fun _ => K) w0 = (Ok None, w0)) as Hagain.
  { intros w0 [n Hc] Hd. subst K. unfold bind, ensure_dir, exists_. rewrite Hc.
    rewrite bool_decide_true by done. reflexivity. }
  assert (forall w0 : world, is_Some (fs w0 !! clean_dir) ->
    K w0 = (Ok r, w1) -> r <> Some false ->
    is_Some (fs w1 !! clean_dir) /\ is_Some (fs w1 !! dirty_path)) as Hfirst.
  { intros w0 Hc. subst K. unfold bind at 1. unfold exists_.
    destruct (fs w0 !! dirty_path) as [n|] eqn:Hd.
    - rewrite bool_decide_true by done. intros [= <- <-] _. by rewrite Hd.
    - rewrite bool_decide_false by (intros [? ?]; done).
      unfold bind, lift, http_get_, http_head_, write_file, ret.
      destruct (attr (video_id self)) as [id|e]; [|done].
      destruct (http_get E _ _) as [response|e]; [|done].
      destruct (status_code response =? 200)%nat; [|by intros [= <- <-]].
      destruct (http_head E _ _) as [head|e]; [|done].
      cbn [fs log set_fs]. rewrite Hd. cbn [fs log set_fs].
      destruct (decide (path_join clean_dir (filename ++ ".txt") = dirty_path)) as [Heq|Hne].
      + rewrite Heq, lookup_insert_eq. intros [= <- <-] _. cbn [fs set_fs].
        rewrite lookup_insert_eq.
        split; [|done].
        destruct (decide (clean_dir = dirty_path)) as [->|Hn];
          [by rewrite lookup_insert_eq|].
        rewrite !lookup_insert_ne by done. done.
      + rewrite lookup_insert_ne by done.
        destruct (fs w0 !! path_join clean_dir (filename ++ ".txt")) as [[c|]|] eqn:Hcp;
          [| done |]; intros [= <- <-] _; cbn [fs set_fs].
        * split.
          -- destruct (decide (clean_dir = path_join clean_dir (filename ++ ".txt")))
               as [<-|Hn1]; [by rewrite lookup_insert_eq|].
             rewrite lookup_insert_ne by done.
             destruct (decide (clean_dir = dirty_path)) as [->|Hn2];
               [by rewrite lookup_insert_eq|].
             by rewrite lookup_insert_ne.
          -- rewrite lookup_insert_ne by done. by rewrite lookup_insert_eq.
        * split.
          -- destruct (decide (clean_dir = path_join clean_dir (filename ++ ".txt")))
               as [<-|Hn1]; [by rewrite lookup_insert_eq|].
             rewrite lookup_insert_ne by done.
             destruct (decide (clean_dir = dirty_path)) as [->|Hn2];
               [by rewrite lookup_insert_eq|].
             by rewrite lookup_insert_ne.
          -- rewrite lookup_insert_ne by done. by rewrite lookup_insert_eq. }
  change (bind (ensure_dir clean_dir) (fun _ => K) w = (Ok r, w1) -> r <> Some false ->
          bind (ensure_dir clean_dir) (fun _ => K) w1 = (Ok None, w1)).
  unfold bind at 1. unfold ensure_dir at 1.
  destruct (fs w !! clean_dir) as [n|] eqn:Hc.
  - intros H Hr. destruct (Hfirst w) as [H1 H2]; [by rewrite Hc|exact H|exact Hr|].
    by apply Hagain.
  - intros H Hr.
    destruct (Hfirst (set_fs (<[clean_dir := Dir]> (fs w)) w)) as [H1 H2];
      [cbn; by rewrite lookup_insert_eq|exact H|exact Hr|].
    by apply Hagain.
Qed.
End Subtitles.

Lemma paths_ret {A} (a : A) : keeps_paths (ret a).
Proof. by intros w r w' [= <- <-]. Qed.

Lemma paths_lift {A} (x : res A) : keeps_paths (lift x).
Proof. by intros w r w' [= <- <-]. Qed.

Lemma paths_bind {A B} (c : M A) (k : A -> M B) :
  keeps_paths c -> (forall a, keeps_paths (k a)) -> keeps_paths (bind c k).
Proof.
  intros Hc Hk w r w'. unfold bind.
  destruct (c w) as [[a|e] w1] eqn:Hcw.
  - intros H p Hp. eapply Hk; [exact H|]. by eapply Hc.
  - intros [= <- <-]. by eapply Hc.
Qed.

Lemma paths_pure {A} (x : res A) : keeps_paths (fun w => (x, w)).
Proof. by intros w r w' [= <- <-]. Qed.

Lemma paths_exists (p : string) : keeps_paths (exists_ p).
Proof. by intros w r w' [= <- <-]. Qed.

Lemma paths_ensure_dir (p : string) : keeps_paths (ensure_dir p).
Proof.
  intros w r w'. unfold ensure_dir.
  destruct (fs w !! p) eqn:Hp; intros [= <- <-] q Hq; [done|].
  cbn. destruct (decide (p = q)) as [->|Hn];
    [by rewrite lookup_insert_eq|by rewrite lookup_insert_ne].
Qed.

Lemma paths_write_file (p c : string) : keeps_paths (write_file p c).
Proof.
  intros w r w'. unfold write_file.
  destruct (fs w !! p) as [[?|]|] eqn:Hp; intros [= <- <-] q Hq; try done;
    cbn; (destruct (decide (p = q)) as [->|Hn];
           [by rewrite lookup_insert_eq|by rewrite lookup_insert_ne]).
Qed.

Lemma paths_http_get E (url : string) : keeps_paths (http_get_ E url).
Proof. by intros w r w' [= <- <-]. Qed.

Lemma paths_http_head E (url : string) : keeps_paths (http_head_ E url).
Proof. by intros w r w' [= <- <-]. Qed.

Lemma paths_download_subtitle E self (output_dir filename : string) :
  keeps_paths (download_subtitle E self output_dir filename).
Proof.
  unfold download_subtitle.
  apply paths_bind.
  { destruct (let? lesson := getitem (video_json self) "lesson" in _) as [m|e];
      [apply paths_pure|]. destruct e; apply paths_pure. }
  intros [media_id|]; [|apply paths_ret].
  destruct (is_None media_id); [apply paths_ret|].
  apply paths_bind; [apply paths_ensure_dir|]. intros _.
  apply paths_bind; [apply paths_exists|]. intros [|]; [apply paths_ret|].
  apply paths_bind; [apply paths_lift|]. intros id.
  apply paths_bind; [apply paths_http_get|]. intros response.
  destruct (status_code response =? 200)%nat; [|apply paths_ret].
  apply paths_bind; [apply paths_http_head|]. intros _.
  apply paths_bind; [apply paths_write_file|]. intros _.
  apply paths_bind; [apply paths_write_file|]. intros _.
  apply paths_ret.
Qed.

Lemma subtitle_single_again E self (output_dir filename : string) (w w1 : world) :
  download_subtitles self = true ->
  download_single E self JNull output_dir filename w = (Ok true, w1) ->
  download_single E self JNull output_dir filename w1 = (Ok true, w1).
Proof.
  intros Hsub. unfold download_single. rewrite Hsub. unfold bind.
  destruct (download_subtitle E self output_dir _ w) as [[r|e] w0] eqn:H1; [|done].
  intros H.
  assert (r <> Some false /\ w0 = w1) as [Hr ->]
    by (destruct r as [[|]|]; unfold ret in H; cbn in H; split; congruence).
  by rewrite (download_subtitle_again E self _ _ _ _ _ H1 Hr).
Qed.

Lemma ensure_dir_present (p : string) (w : world) :
  exists w', ensure_dir p w = (Ok tt, w') /\ is_Some (fs w' !! p)
    /\ (is_Some (fs w !! p) -> w' = w)
    /\ (forall q, is_Some (fs w !! q) -> is_Some (fs w' !! q)).
Proof.
  destruct (ensure_dir p w) as [r w'] eqn:He. exists w'.
  pose proof (paths_ensure_dir p w r w' He) as Hg. revert He.
  unfold ensure_dir. destruct (fs w !! p) as [n|] eqn:Hp; intros [= <- <-].
  - by rewrite Hp.
  - repeat split; [cbn; by rewrite lookup_insert_eq| |exact Hg]. by intros [? ?].
Qed.

Lemma prepare_dirs_present E self (output_dir : string) (w : world) :
  let course_dir := path_join output_dir (strip_illegal_path E (_course_name self)) in
  let dirty_dir := path_join course_dir "dirty" in
  let clean_dir := path_join course_dir "clean" in
  exists w',
    prepare_dirs E self output_dir w = (Ok dirty_dir, w')
    /\ is_Some (fs w' !! course_dir) /\ is_Some (fs w' !! dirty_dir)
    /\ is_Some (fs w' !! clean_dir)
    /\ (is_Some (fs w !! course_dir) -> is_Some (fs w !! dirty_dir) ->
        is_Some (fs w !! clean_dir) -> w' = w).
Proof.
  intros course_dir dirty_dir clean_dir. unfold prepare_dirs, bind.
  fold course_dir. fold dirty_dir. fold clean_dir.
  destruct (ensure_dir_present course_dir w) as (w1 & -> & H1 & E1 & G1).
  destruct (ensure_dir_present dirty_dir w1) as (w2 & -> & H2 & E2 & G2).
  destruct (ensure_dir_present clean_dir w2) as (w3 & -> & H3 & E3 & G3).
  exists w3. split; [done|]. repeat split; auto.
  intros Hc Hd Hcl. rewrite (E1 Hc) in *. rewrite (E2 Hd) in *. by rewrite (E3 Hcl).
Qed.

(** X10. Subtitle mode is idempotent: after a [download] that returned
    [True], a second [download] with the same arguments returns [True] and
    leaves the world as it is; in particular it sends no request. *)
Theorem subtitle_download_is_idempotent E (self : EchoCloudVideo)
    (output_dir filename : string) (w w1 : world) :
  download_subtitles self = true ->
  download E self output_dir filename w = (Ok true, w1) ->
  download E self output_dir filename w1 = (Ok true, w1).
Proof.
  intros Hsub. unfold download. rewrite Hsub. cbn [negb]. unfold bind.
  destruct (prepare_dirs_present E self output_dir w) as (wa & -> & Hc & Hd & Hcl & _).
  intros H.
  assert (keeps_paths (download_single E self JNull
            (path_join (path_join output_dir (strip_illegal_path E (_course_name self)))
               "dirty") filename)) as Hgrow.
  { unfold download_single. rewrite Hsub.
    apply paths_bind; [apply paths_download_subtitle|].
    intros [b|]; apply paths_ret. }
  destruct (prepare_dirs_present E self output_dir w1) as (wb & -> & _ & _ & _ & Heq).
  assert (wb = w1) as -> by (apply Heq; eapply Hgrow; eauto).
  by eapply subtitle_single_again.
Qed.

Lemma subtitle_download_is_idempotent_witness :
  let E := env_of (Ok "") 200 "WEBVTT" MuxExecutableNotFound in
  let w1 := snd (download E (intro_video false true) "out" "Intro" empty_world) in
  HttpGet "https://echo360.org/api/ui/echoplayer/lessons/L1/medias/M1/transcript-file?format=vtt"
    ∈ trace w1
  /\ download E (intro_video false true) "out" "Intro" w1 = (Ok true, w1).
Proof.
  intros E w1. split.
  - vm_compute. left.
  - apply (subtitle_download_is_idempotent E (intro_video false true) "out" "Intro"
             empty_world w1); [reflexivity|]. vm_compute. reflexivity.
Defined.

Lemma find_video_media_id_none (items : list json) :
  Forall (fun m => exists t, getitem m "mediaType" = Ok t /\ eq_str t "Video" = false)
    items ->
  find_video_media_id items = Ok JNull.
Proof.
  induction 1 as [|m items (t & Ht & Hv) _ IH]; [done|].
  cbn [find_video_media_id]. rewrite Ht. cbn [rbind]. by rewrite Hv.
Qed.

(** X11. Subtitles need a video media: in subtitle mode, when the lesson
    has no [medias] entry or none of its media has the type [Video],
    [download_single] returns [False] at once, whatever the address, with no
    request sent and nothing written. *)
Theorem subtitles_need_a_video_media E (self : EchoCloudVideo) (single_url : json)
    (output_dir filename : string) (w : world) (lesson : json) :
  download_subtitles self = true ->
  getitem (video_json self) "lesson" = Ok lesson ->
  (getitem lesson "medias" = Raise KeyError
   \/ exists medias items,
        getitem lesson "medias" = Ok medias /\ iterate medias = Ok items
        /\ Forall (fun m => exists t, getitem m "mediaType" = Ok t
                                      /\ eq_str t "Video" = false) items) ->
  download_single E self single_url output_dir filename w = (Ok false, w).
Proof.
  intros Hsub Hl Hm. unfold download_single, download_subtitle. rewrite Hsub, Hl.
  cbn [rbind]. destruct Hm as [-> | (medias & items & -> & Hit & Hall)].
  - reflexivity.
  - cbn [rbind]. rewrite Hit. cbn [rbind].
    rewrite (find_video_media_id_none _ Hall). reflexivity.
Qed.

Lemma subtitles_need_a_video_media_witness :
  let E := env_of (Ok "") 200 "WEBVTT" MuxExecutableNotFound in
  download_single E slides_only_video (JStr "https://h/a.hd1.mp4") "out" "Intro"
    empty_world
  = (Ok false, empty_world).
Proof.
  intros E.
  eapply (subtitles_need_a_video_media E slides_only_video); [reflexivity|reflexivity|].
  right. eexists _, _. split; [reflexivity|]. split; [reflexivity|].
  repeat constructor. eexists. split; reflexivity.
Defined.

(** ** A successful mux *)

Lemma combine_audio_video_done E audio_file video_file final_file (w : world) out :
  ffmpeg_run E (trace w) (mux_inputs audio_file video_file) final_file = MuxDone out ->
  fs w !! final_file <> Some Dir ->
  combine_audio_video E audio_file video_file final_file w
  = (Ok true,
     set_fs (<[final_file := File out]> (fs w))
       (log (FFmpegRun (mux_inputs audio_file video_file) final_file) w)).
Proof.
  intros Hrun Hnd. unfold combine_audio_video, bind, exists_, remove.
  destruct (fs w !! final_file) as [[c|]|] eqn:Hf; [| done |].
  - rewrite bool_decide_true by done. rewrite Hf. cbn [trace set_fs]. rewrite Hrun.
    unfold write_file, ret. cbn [fs log set_fs trace]. rewrite lookup_delete_eq.
    by rewrite insert_delete_eq.
  - rewrite bool_decide_false by (intros [? ?]; done). unfold ret. rewrite Hrun.
    unfold write_file. cbn [fs log set_fs trace]. by rewrite Hf.
Qed.

(** X12. A successful mux leaves only the final file: when the tool
    succeeds on raw files that exist and differ from each other and from the
    target, the branch ends with the output of the tool at the target path,
    the raw video and audio files removed, every other path untouched, and
    the run of the tool as the only event. *)
Theorem successful_mux_leaves_only_the_final_file E (audio_file : option string)
    (video_file final_file : string) (w : world) (out : string) :
  ffmpeg_run E (trace w) (mux_inputs audio_file video_file) final_file = MuxDone out ->
  (exists v, fs w !! video_file = Some (File v)) ->
  (forall a, audio_file = Some a ->
     (exists c, fs w !! a = Some (File c)) /\ a <> video_file /\ a <> final_file) ->
  video_file <> final_file ->
  fs w !! final_file <> Some Dir ->
  exists w',
    remux E audio_file video_file final_file w = (Ok tt, w')
    /\ trace w' = (trace w ++ [FFmpegRun (mux_inputs audio_file video_file) final_file])%list
    /\ fs w' !! final_file = Some (File out)
    /\ fs w' !! video_file = None
    /\ (forall a, audio_file = Some a -> fs w' !! a = None)
    /\ (forall p, p <> final_file -> p <> video_file -> audio_file <> Some p ->
          fs w' !! p = fs w !! p).
Proof.
  intros Hrun [v Hv] Ha Hvf Hnd. unfold remux, bind.
  rewrite (combine_audio_video_done E _ _ _ w out Hrun Hnd).
  destruct audio_file as [a|].
  - destruct (Ha a eq_refl) as ([c Hc] & Hav & Haf).
    unfold remove. cbn [fs set_fs log trace].
    rewrite lookup_insert_ne by done. rewrite Hc. cbn [fs set_fs].
    rewrite lookup_delete_ne by done. rewrite lookup_insert_ne by done. rewrite Hv.
    eexists. split; [reflexivity|]. cbn [fs set_fs trace].
    split; [done|]. split; [|split; [|split]].
    + rewrite !lookup_delete_ne by done. apply lookup_insert_eq.
    + apply lookup_delete_eq.
    + intros ? [= <-]. rewrite lookup_delete_ne by done. apply lookup_delete_eq.
    + intros p H1 H2 H3. rewrite !lookup_delete_ne by congruence.
      by rewrite lookup_insert_ne.
  - unfold remove, ret. cbn [fs set_fs log trace].
    rewrite lookup_insert_ne by done. rewrite Hv.
    eexists. split; [reflexivity|]. cbn [fs set_fs trace].
    split; [done|]. split; [|split; [|split]].
    + rewrite lookup_delete_ne by done. apply lookup_insert_eq.
    + apply lookup_delete_eq.
    + intros ? [=].
    + intros p H1 H2 H3. rewrite lookup_delete_ne by congruence.
      by rewrite lookup_insert_ne.
Qed.

Lemma successful_mux_leaves_only_the_final_file_witness :
  let E := env_of (Ok "") 200 "" (MuxDone "muxed") in
  exists w',
    remux E (Some "out/Intro_audio.ts") "out/Intro_video.ts" "out/Intro.mp4"
      world_with_raw = (Ok tt, w')
    /\ fs w' = {[ "out/Intro.mp4" := File "muxed" ]}.
Proof.
  intros E.
  destruct (successful_mux_leaves_only_the_final_file E (Some "out/Intro_audio.ts")
              "out/Intro_video.ts" "out/Intro.mp4" world_with_raw "muxed")
    as (w' & Hw' & _).
  - reflexivity.
  - eexists. vm_compute. reflexivity.
  - intros a [= <-]. split; [eexists; vm_compute; reflexivity|]. split; discriminate.
  - discriminate.
  - vm_compute. discriminate.
  - exists w'. split; [exact Hw'|].
    vm_compute in Hw'. injection Hw' as <-. vm_compute. reflexivity.
Defined.

(** ** A manifest that cannot be used *)



(** ** The counters of the pass *)

Section PassCounters.
Variable E : env.
Variable hostname course_name : string.

(** The transcript step moves no counter but [_processed_lectures], which
    it increments exactly when it ends in [continue]. *)
Lemma process_transcript_counts item (s s' : pass * world) r :
  process_transcript E hostname course_name item s = (r, s') ->
  _lecture_count (fst s') = _lecture_count (fst s)
  /\ _skipped_lectures (fst s') = _skipped_lectures (fst s)
  /\ found_future_lecture (fst s') = found_future_lecture (fst s)
  /\ queue (fst s') = queue (fst s)
  /\ (_processed_lectures (fst s')
      = _processed_lectures (fst s)
        + match r with Ok (Some _) => 1 | _ => 0 end)%Z
  /\ (forall f, r = Ok (Some f) -> f = Next).
Proof.
  destruct s as [p w]. unfold process_transcript.
  unfold bind, lift, ret, get_pass, update, modify, in_world, session_get_transcript,
    bind, update, modify, in_world.
  cbn [fst snd].
  intros H.
  repeat case_match; simplify_eq; cbn; repeat split; try lia; try congruence.
Qed.

(** Once a lecture without content was found the traversal is over. *)
Lemma while_queue_stops fuel (p : pass) (w : world) :
  found_future_lecture p = true ->
  while_queue E hostname course_name (S fuel) (p, w) = (Ok tt, (p, w)).
Proof.
  intros Hf. rewrite while_queue_S. rewrite Hf.
  by destruct (queue p) as [|[items path] rest].
Qed.

Lemma process_item_counts path item (p p' : pass) (w w' : world) f :
  process_item E hostname course_name path item (p, w) = (Ok f, (p', w')) ->
  found_future_lecture p = false ->
  _lecture_count p' = _lecture_count p
  /\ match f with
     | Break =>
         found_future_lecture p' = true
         /\ (_processed_lectures p' + _skipped_lectures p' = _lecture_count p)%Z
     | Next =>
         found_future_lecture p' = false
         /\ _skipped_lectures p' = _skipped_lectures p
         /\ exists added,
              queue p' = (queue p ++ added)%list
              /\ forall rest c qc,
                   count_items (item :: rest) c qc
                   = count_items rest
                       (c + (_processed_lectures p' - _processed_lectures p))%Z
                       (qc ++ map (fun e => (fst e, "")) added)%list
     end.
Proof.
  intros H Hfound. unfold process_item in H.
  destruct item as [| | | | |d];
    try (injection H as <- <- <-; split; [done|]; split; [done|]; split; [done|];
         exists []; split; [by rewrite app_nil_r|];
         intros rest c qc; cbn [count_items map]; rewrite app_nil_r; f_equal; lia).
  unfold bind, lift, ret, get_pass, update, modify, in_world, catch, count_processed,
    raise, update, modify in H.
  cbn [fst snd] in H.
  repeat case_match; simplify_eq;
    repeat match goal with
    | Hx : process_transcript _ _ _ _ _ = _ |- _ =>
        apply process_transcript_counts in Hx; cbn in Hx;
        destruct Hx as (? & ? & ? & ? & ? & ?)
    end; cbn [_lecture_count _processed_lectures _skipped_lectures found_future_lecture
              queue set_processed_lectures set_skipped_lectures set_found_future_lecture
              set_processed_videos set_queue fst snd] in *.
  all: try (split; [congruence|]).
  all: try (split; [done|lia]).
  all: try match goal with
           | Hx : forall f, Ok (Some Break) = Ok (Some f) -> f = Next |- _ =>
               specialize (Hx _ eq_refl); discriminate
           end.
  all: split; [congruence|]; split; [congruence|].
  all: try (exists []; split; [rewrite app_nil_r; congruence|];
            intros rest c qc; cbn [count_items map]; rewrite app_nil_r;
            repeat match goal with
                   | Hx : is_lesson _ = _ |- _ => rewrite Hx; clear Hx
                   | Hx : contains _ _ = _ |- _ => rewrite Hx; clear Hx
                   end; cbn [rbind];
            first [f_equal; lia
                  | match goal with
                    | Hx : _ && negb _ = false |- _ =>
                        rewrite Hfound in Hx; cbn in Hx;
                        rewrite andb_true_r in Hx; rewrite Hx; f_equal; lia
                    end]).
  all: eexists [_]; (split; [reflexivity|]);
    intros rest c qc; cbn [count_items map fst];
    repeat match goal with
           | Hx : is_lesson _ = _ |- _ => rewrite Hx; clear Hx
           | Hx : contains _ _ = _ |- _ => rewrite Hx; clear Hx
           | Hx : getitem _ "lessons" = _ |- _ => rewrite Hx; clear Hx
           end; cbn [rbind].
  all: match goal with Hx : _ && negb _ = true |- _ =>
         apply andb_true_iff in Hx as [-> _] end.
  all: f_equal; lia.
Qed.

Lemma for_items_counts path items (p p' : pass) (w w' : world) :
  for_items E hostname course_name path items (p, w) = (Ok tt, (p', w')) ->
  found_future_lecture p = false ->
  _lecture_count p' = _lecture_count p
  /\ ((found_future_lecture p' = true
       /\ (_processed_lectures p' + _skipped_lectures p' = _lecture_count p)%Z)
      \/ (found_future_lecture p' = false
          /\ _skipped_lectures p' = _skipped_lectures p
          /\ exists added,
               queue p' = (queue p ++ added)%list
               /\ forall c qc,
                    count_items items c qc
                    = Ok ((c + (_processed_lectures p' - _processed_lectures p))%Z,
                          (qc ++ map (fun e => (fst e, "")) added)%list))).
Proof.
  revert p w. induction items as [|item rest IH]; intros p w; cbn [for_items].
  - intros [= <- <-] Hf. split; [done|]. right. split; [done|]. split; [done|].
    exists []. split; [by rewrite app_nil_r|]. intros c qc. cbn [count_items map].
    rewrite app_nil_r. do 2 f_equal. lia.
  - unfold bind.
    destruct (process_item E hostname course_name path item (p, w))
      as [[f|e] [p1 w1]] eqn:Hitem; [|done].
    intros H Hf. destruct (process_item_counts _ _ _ _ _ _ _ Hitem Hf) as [Hc Hcase].
    destruct f.
    + destruct Hcase as (Hf1 & Hs1 & added1 & Hq1 & Hcount1).
      destruct (IH _ _ H Hf1) as [Hc2 [[Hf2 Hsum]|(Hf2 & Hs2 & added2 & Hq2 & Hcount2)]].
      * split; [congruence|]. left. split; [done|]. congruence.
      * split; [congruence|]. right. split; [done|]. split; [congruence|].
        exists (added1 ++ added2)%list. split; [by rewrite Hq2, Hq1, app_assoc|].
        intros c qc. rewrite Hcount1, Hcount2, map_app, app_assoc. do 2 f_equal. lia.
    + injection H as <- <-. destruct Hcase as [Hf1 Hsum].
      split; [done|]. by left.
Qed.

Lemma while_queue_counts fuel (p p' : pass) (w w' : world) :
  while_queue E hostname course_name fuel (p, w) = (Ok tt, (p', w')) ->
  found_future_lecture p = false ->
  _lecture_count p' = _lecture_count p
  /\ ((found_future_lecture p' = true
       /\ (_processed_lectures p' + _skipped_lectures p' = _lecture_count p)%Z)
      \/ (found_future_lecture p' = false
          /\ _skipped_lectures p' = _skipped_lectures p
          /\ forall c qc,
               map fst qc = map fst (queue p) ->
               count_loop fuel c qc
               = Ok (c + (_processed_lectures p' - _processed_lectures p))%Z)).
Proof.
  revert p w. induction fuel as [|fuel IH]; intros p w; [done|].
  rewrite while_queue_S.
  destruct (queue p) as [|[items path] rest] eqn:Hq.
  - intros [= <- <-] Hf. split; [done|]. right. split; [done|]. split; [done|].
    intros c [|? ?] Hqc; [|done]. cbn [count_loop]. f_equal. lia.
  - intros H Hf. rewrite Hf in H.
    destruct (iterate items) as [l|e] eqn:Hit; [|done].
    destruct (for_items E hostname course_name path l (set_queue rest p, w))
      as [[[]|e] [p1 w1]] eqn:Hfor; [|done].
    destruct (for_items_counts _ _ _ _ _ _ Hfor Hf)
      as [Hc1 [[Hf1 Hsum]|(Hf1 & Hs1 & added & Hq1 & Hcount)]];
      cbn [set_queue _lecture_count _processed_lectures _skipped_lectures queue] in *.
    + destruct fuel as [|fuel']; [done|].
      rewrite while_queue_stops in H by done. injection H as <- <-.
      split; [done|]. by left.
    + destruct (IH _ _ H Hf1) as [Hc2 [[Hf2 Hsum]|(Hf2 & Hs2 & Hloop)]].
      * split; [congruence|]. left. split; [done|]. congruence.
      * split; [congruence|]. right. split; [done|]. split; [congruence|].
        intros c [|[items' x] qc] Hqc; [done|]. cbn [map fst] in Hqc.
        injection Hqc as -> Hqc. cbn [count_loop]. rewrite Hit. cbn [rbind].
        rewrite Hcount. cbn [rbind fst snd].
        rewrite Hloop.
        -- f_equal. lia.
        -- rewrite Hq1, !map_app, Hqc. f_equal.
           rewrite map_map. reflexivity.
Qed.
End PassCounters.

(** *** The budget of the count *)

Lemma count_items_cost (items : list json) (c c' : Z) (q q' : list (json * string)) :
  count_items items c q = Ok (c', q') ->
  queue_cost q' <= queue_cost q + dict_load items.
Proof.
  revert c q. induction items as [|item rest IH]; intros c q; cbn [count_items].
  - intros [= <- <-]. change (dict_load []) with 0. lia.
  - rewrite dict_load_cons.
    destruct item as [| | | | |d]; try (intros H; apply IH in H; lia).
    destruct (is_lesson (JDict d)) as [[|]|e]; cbn [rbind]; [| |done].
    + intros H; apply IH in H; lia.
    + cbn [contains getitem]. destruct (assoc "groupInfo" d); cbn [rbind].
      * destruct (assoc "lessons" d) as [v|] eqn:Hv; cbn [rbind]; [|done].
        intros H; apply IH in H. rewrite queue_cost_snoc in H.
        apply json_size_assoc in Hv. lia.
      * intros H; apply IH in H; lia.
Qed.

Lemma count_items_no_fuel (items : list json) (c : Z) (q : list (json * string)) :
  count_items items c q <> Raise OutOfFuel.
Proof.
  revert c q. induction items as [|item rest IH]; intros c q; cbn [count_items]; [done|].
  destruct item as [| | | | |d]; try apply IH.
  unfold is_lesson. cbn [getitem contains].
  destruct (assoc "type" d) as [[| | |t| |]|]; cbn [rbind]; try done.
  destruct (str_contains (lower t) "lesson"); [apply IH|].
  destruct (assoc "groupInfo" d); cbn [rbind]; [|apply IH].
  destruct (assoc "lessons" d); cbn [rbind]; [apply IH|done].
Qed.

Lemma count_loop_no_fuel (fuel : nat) (c : Z) (q : list (json * string)) :
  queue_cost q < fuel -> count_loop fuel c q <> Raise OutOfFuel.
Proof.
  revert c q. induction fuel as [|fuel IH]; intros c q Hq; [lia|].
  cbn [count_loop]. destruct q as [|[items path] rest]; [done|].
  rewrite queue_cost_cons in Hq.
  destruct (iterate items) as [l|e] eqn:Hit; cbn [rbind].
  2:{ destruct items; cbn in Hit; congruence. }
  destruct (count_items l c rest) as [[c' q']|e] eqn:Hc; cbn [rbind fst snd].
  - apply IH. apply count_items_cost in Hc. apply dict_load_iterate in Hit. lia.
  - intros [= ->]. by apply count_items_no_fuel in Hc.
Qed.

Lemma count_lectures_no_fuel (videos_json : json) :
  _count_lectures videos_json <> Raise OutOfFuel.
Proof.
  apply count_loop_no_fuel. unfold pass_budget. rewrite queue_cost_cons.
  change (queue_cost []) with 0. lia.
Qed.

(** X14. The two counters of the pass add up. [_count_lectures] returns
    within the budget of its model, and after [get_videos] on a course
    object whose counters are at zero, [_processed_lectures] plus
    [_skipped_lectures] is the [_lecture_count] that [_count_lectures]
    returned; when no lecture without content was met, nothing was skipped. *)
Theorem pass_accounts_for_every_lecture E (hostname course_name : string)
    (alternative_feeds subtitles : bool) (videos_json : json) :
  _count_lectures videos_json <> Raise OutOfFuel
  /\ forall (p p' : pass) (w w' : world) (videos : list EchoCloudVideo),
       _processed_lectures p = 0%Z ->
       _skipped_lectures p = 0%Z ->
       counted_pass E hostname course_name alternative_feeds subtitles videos_json (p, w)
       = (Ok videos, (p', w')) ->
       _count_lectures videos_json = Ok (_lecture_count p')
       /\ (_processed_lectures p' + _skipped_lectures p' = _lecture_count p')%Z
       /\ (found_future_lecture p' = false -> _skipped_lectures p' = 0%Z).
Proof.
  split; [apply count_lectures_no_fuel|].
  intros p p' w w' videos Hp0 Hs0.
  unfold counted_pass. unfold bind at 1. unfold lift at 1.
  destruct (_count_lectures videos_json) as [n|e] eqn:Hn; [|done].
  unfold bind at 1. unfold update at 1. unfold modify. cbn [fst snd].
  unfold get_videos. unfold bind at 1. unfold update at 1. unfold modify. cbn [fst snd].
  unfold bind at 1.
  match goal with |- context [while_queue E hostname course_name _ (?p1, w)] =>
    set (p0 := p1) end.
  destruct (while_queue E hostname course_name (pass_budget videos_json) (p0, w))
    as [[[]|e] [p2 w2]] eqn:Hw; [|done].
  unfold bind, get_pass, in_world. cbn [fst snd].
  destruct (EchoCloudVideos_init E _ hostname alternative_feeds subtitles
              (Some course_name) true w2) as [r3 w3].
  intros [= -> <- <-].
  destruct (while_queue_counts E hostname course_name _ _ _ _ _ Hw eq_refl)
    as [Hc [[Hf Hsum]|(Hf & Hs & Hloop)]]; subst p0;
    cbn [_lecture_count _processed_lectures _skipped_lectures queue set_filename
         set_processed_videos set_found_future_lecture set_queue] in *.
  - rewrite Hc. split; [done|]. split; [done|]. by rewrite Hf.
  - specialize (Hloop 0%Z [(videos_json, "")] eq_refl).
    unfold _count_lectures in Hn. rewrite Hn in Hloop. injection Hloop as Hloop.
    rewrite Hc. split; [done|]. split; [lia|]. intros _; lia.
Qed.

Lemma pass_accounts_for_every_lecture_witness :
  let E := env_of (Ok "page") 200 "WEBVTT" MuxExecutableNotFound in
  let s := snd (counted_pass E "https://echo360.org" "Course" false true
                  course_with_folder_json (new_pass 0, empty_world)) in
  _count_lectures course_with_folder_json = Ok 3%Z
  /\ _lecture_count (fst s) = 3%Z
  /\ (_processed_lectures (fst s) + _skipped_lectures (fst s) = _lecture_count (fst s))%Z.
Proof.
  intros E s.
  destruct (counted_pass E "https://echo360.org" "Course" false true
              course_with_folder_json (new_pass 0, empty_world))
    as [r [p' w']] eqn:Hrun.
  assert (exists videos, r = Ok videos) as [videos ->].
  { vm_compute in Hrun. injection Hrun as <- _ _. eauto. }
  destruct (proj2 (pass_accounts_for_every_lecture E "https://echo360.org" "Course" false
                     true course_with_folder_json)
              (new_pass 0) p' empty_world w' videos eq_refl eq_refl Hrun)
    as (Hcount & Hsum & _).
  subst s. cbn [fst snd]. split; [vm_compute; reflexivity|].
  split; [|exact Hsum].
  assert (_count_lectures course_with_folder_json = Ok 3%Z) as H3
    by (vm_compute; reflexivity).
  congruence.
Defined.

(** ** The first lecture without content *)

(** X15. The first lecture whose page says that no content was added
    ends the pass: the remaining items of the folder are not visited (the
    load of that page is the only event), the lecture is not added to the
    processed videos, no transcript is requested, the loop over the queue
    stops, and the lectures not processed so far are all counted as
    skipped. *)
Theorem future_lecture_ends_the_pass E (hostname course_name path : string)
    (fields : list (string * json)) (rest : list json) (st : pass) (w : world)
    (id : json) (src : string) (fuel : nat) :
  let item := JDict fields in
  let video_url := hostname ++ "/lesson/" ++ format_value E id ++ "/classroom" in
  let st' :=
    set_found_future_lecture true
      (set_skipped_lectures
         (_skipped_lectures st
          + (_lecture_count st - (_processed_lectures st + _skipped_lectures st)))%Z st) in
  is_lesson item = Ok true ->
  lesson_id item = Ok id ->
  driver_get E (trace w) video_url = Ok tt ->
  page_source E (trace w ++ [DriverGet video_url]) = Ok src ->
  str_contains src no_content_marker = true ->
  for_items E hostname course_name path (item :: rest) (st, w)
  = (Ok tt, (st', log (DriverGet video_url) w))
  /\ while_queue E hostname course_name (S fuel) (st', log (DriverGet video_url) w)
     = (Ok tt, (st', log (DriverGet video_url) w))
  /\ (_processed_lectures st' + _skipped_lectures st' = _lecture_count st')%Z
  /\ processed_videos st' = processed_videos st
  /\ fetched_dates st' = fetched_dates st.
Proof.
  intros item video_url st' Hlesson Hid Hnav Hsrc Hmark.
  split; [|split; [|split; [|split]]].
  - cbn [for_items]. unfold bind at 1.
    assert (process_item E hostname course_name path item (st, w)
            = (Ok Break, (st', log (DriverGet video_url) w))) as ->; [|reflexivity].
    subst item video_url st'.
    unfold process_item, bind, lift, in_world, driver_get_, page_source_, update,
      modify, ret.
    cbv beta iota. rewrite Hlesson. cbv beta iota. rewrite Hid. cbv beta iota.
    cbn [fst snd trace log]. rewrite Hnav. cbv beta iota.
    cbn [fst snd trace log]. rewrite Hsrc. cbv beta iota. rewrite Hmark.
    reflexivity.
  - by apply while_queue_stops.
  - subst st'. cbn. lia.
  - reflexivity.
  - reflexivity.
Qed.

Lemma future_lecture_ends_the_pass_witness :
  let E := env_of (Ok ("<p>" ++ no_content_marker ++ "</p>")) 200 "WEBVTT"
             MuxExecutableNotFound in
  let s := snd (for_items E "https://echo360.org" "Course" ""
                  [lesson_json; second_lesson_json] (new_pass 2, empty_world)) in
  trace (snd s) = [DriverGet "https://echo360.org/lesson/L1/classroom"]
  /\ _skipped_lectures (fst s) = 2%Z
  /\ found_future_lecture (fst s) = true.
Proof.
  intros E s.
  pose proof (proj1 (future_lecture_ends_the_pass E "https://echo360.org" "Course" ""
                       (match lesson_json with JDict d => d | _ => [] end)
                       [second_lesson_json] (new_pass 2) empty_world (JStr "L1")
                       ("<p>" ++ no_content_marker ++ "</p>") 0
                       eq_refl eq_refl eq_refl eq_refl eq_refl)) as H.
  subst s. change (JDict match lesson_json with JDict d => d | _ => [] end)
    with lesson_json in H.
  rewrite H. repeat split.
Defined.

(** ** Paths *)

























(** ** Lectures that fail *)



(** ** An error before the first file name *)

(** X18. An error in the transcript step is reported with the file name
    of the lecture. When the step fails before any file name was assigned
    in this pass (the media of the first lesson cannot be read, say), the
    handler itself raises [UnboundLocalError] and the pass is over; once a
    file name was assigned, the lecture is counted as processed and the pass
    goes on. *)
Theorem transcript_error_needs_a_file_name E (hostname course_name path : string)
    (fields : list (string * json)) (st : pass) (w : world)
    (id : json) (src : string) (e : exn) :
  let item := JDict fields in
  let item' := JDict (assoc_set "path_prefix" (JStr path) fields) in
  let video_url := hostname ++ "/lesson/" ++ format_value E id ++ "/classroom" in
  let st' := set_processed_videos (processed_videos st ++ [item'])%list st in
  is_lesson item = Ok true ->
  lesson_id item = Ok id ->
  driver_get E (trace w) video_url = Ok tt ->
  page_source E (trace w ++ [DriverGet video_url]) = Ok src ->
  str_contains src no_content_marker = false ->
  video_media_id item' = Raise e ->
  is_Exception e = true ->
  process_item E hostname course_name path item (st, w)
  = match filename st with
    | None => (Raise UnboundLocalError, (st', log (DriverGet video_url) w))
    | Some _ =>
        (Ok Next,
         (set_processed_lectures (_processed_lectures st + 1) st',
          log (DriverGet video_url) w))
    end.
Proof.
  intros item item' video_url st' Hlesson Hid Hnav Hsrc Hmark Hmedia He.
  subst item item' video_url st'.
  unfold process_item, process_transcript, bind, lift, in_world, driver_get_,
    page_source_, update, modify, catch, get_pass, ret, count_processed, raise,
    update, modify.
  cbv beta iota. rewrite Hlesson. cbv beta iota. rewrite Hid. cbv beta iota.
  cbn [fst snd trace log]. rewrite Hnav. cbv beta iota.
  cbn [fst snd trace log]. rewrite Hsrc. cbv beta iota. rewrite Hmark.
  cbn [setitem fst snd]. rewrite Hmedia. cbv beta iota. rewrite He.
  cbn [fst snd filename set_processed_videos].
  destruct (filename st); reflexivity.
Qed.

Lemma transcript_error_needs_a_file_name_witness :
  let E := env_of (Ok "page") 200 "WEBVTT" MuxExecutableNotFound in
  fst (process_item E "https://echo360.org" "Course" "" no_medias_json
         (new_pass 1, empty_world))
  = Raise UnboundLocalError
  /\ fst (get_videos E "https://echo360.org" "Course" false true (JList [no_medias_json])
            (new_pass 1, empty_world))
     = Raise UnboundLocalError.
Proof.
  intros E. split; [|vm_compute; reflexivity].
  pose proof (transcript_error_needs_a_file_name E "https://echo360.org" "Course" ""
                (match no_medias_json with JDict d => d | _ => [] end)
                (new_pass 1) empty_world (JStr "L1") "page" KeyError
                eq_refl eq_refl eq_refl eq_refl eq_refl eq_refl eq_refl) as H.
  change (JDict match no_medias_json with JDict d => d | _ => [] end)
    with no_medias_json in H.
  rewrite H. reflexivity.
Defined.
